(** * jfrog-sagen: the site differ and the report harvester

    A shallow embedding of [src/artifactory/sites_diff.py] and
    [src/xray/reports.py], and the properties of their two algorithms:
    the two-level set difference of [diff] and the page walk of
    [_report_summaries_generator].

    Python dictionaries are [gmap]s, Python sets are [gset]s, exceptions
    are the [Raise] outcome of a small error monad, and the remote
    services are values: what each endpoint answers. *)

From stdpp Require Import base option list gmap sets strings pretty.
From Stdlib Require Import ZArith.

Local Open Scope string_scope.
Local Open Scope list_scope.
Local Open Scope nat_scope.

(** ** Exceptions and the error monad *)

(** A scalar JSON value, as [json.load] decodes it. *)
Inductive json : Type :=
  | JNull
  | JBool (b : bool)
  | JInt (n : Z)
  | JStr (s : string).

(** The exceptions the two scripts can end with. [HTTPError] is what
    [requests]' [raise_for_status] raises, [KeyError] is a failed [d[k]],
    and the two others are the [raise Exception(...)] of
    [import_definitions]. *)
Inductive exn : Type :=
  | HTTPError (status_code : nat)
  | KeyError (key : string)
  | NotADirectory
  | UnrecognizedReportType (report_type : json).

Inductive result (A : Type) : Type :=
  | Ok (a : A)
  | Raise (e : exn).
Arguments Ok {A} a.
Arguments Raise {A} e.

#[global] Instance result_ret : MRet result := λ A a, Ok a.
#[global] Instance result_bind : MBind result := λ A B f m,
  match m with
  | Ok a => f a
  | Raise e => Raise e
  end.
#[global] Instance result_fmap : FMap result := λ A B f m,
  match m with
  | Ok a => Ok (f a)
  | Raise e => Raise e
  end.

#[global] Instance json_eq_dec : EqDecision json.
Proof. solve_decision. Defined.

(** A [requests.Response]: the status code and the decoded body. *)
Record response (A : Type) : Type := Response {
  status_code : nat;
  json_body : A
}.
Arguments Response {A} status_code json_body.
Arguments status_code {A} r.
Arguments json_body {A} r.

(** [response.raise_for_status()]: client and server error codes raise. *)
Definition _raise_for_status {A} (r : response A) : result unit :=
  if bool_decide (400 ≤ status_code r < 600)
  then Raise (HTTPError (status_code r))
  else Ok tt.

(** [d[k]] on a dictionary with string keys. *)
Definition getitem {V} (k : string) (d : gmap string V) : result V :=
  match d !! k with
  | Some v => Ok v
  | None => Raise (KeyError k)
  end.

(** [for x in xs: body], the state threaded through, an exception ending
    the loop. *)
Fixpoint for_each {X S} (body : X → S → result S) (xs : list X) (s : S)
  : result S :=
  match xs with
  | [] => Ok s
  | x :: xs' => s' ← body x s; for_each body xs' s'
  end.

(** [d.setdefault(k, v)]: the dictionary after the call. *)
Definition setdefault {V} (k : string) (v : V) (d : gmap string V)
  : gmap string V :=
  match d !! k with
  | Some _ => d
  | None => <[k := v]> d
  end.

(** * sites_diff.py *)
Module SitesDiff.

(** A repository or a file as the REST API lists it: [dict[str, Any]],
    with the fields the script reads ([key], [type], [uri], [sha1],
    [sha2]), all of them JSON strings. *)
Abbreviation item := (gmap string string).

(** One Artifactory site: what [GET /artifactory/api/repositories] and
    [GET /artifactory/api/storage/<repository>?list] answer. The body of
    the second is an object whose ["files"] member may be absent. *)
Record site : Type := Site {
  api_repositories : response (list item);
  api_storage : string → response (option (list item))
}.

(** [{item[field]: item for item in items}]: a later item replaces an
    earlier one with the same key. *)
Fixpoint dict_by (field : string) (items : list item)
    (acc : gmap string item) : result (gmap string item) :=
  match items with
  | [] => Ok acc
  | it :: rest => k ← getitem field it; dict_by field rest (<[k := it]> acc)
  end.

Definition _repository_keys (s : site) : result (gmap string item) :=
  let response := api_repositories s in
  _ ← _raise_for_status response;
  dict_by "key" (json_body response) ∅.

Definition _list_items (s : site) (repository : string)
  : result (gmap string item) :=
  let response := api_storage s repository in
  _ ← _raise_for_status response;
  files ← match json_body response with
          | Some files => Ok files
          | None => Raise (KeyError "files")
          end;
  dict_by "uri" files ∅.

(** The [report] dictionary that [diff] dumps. *)
Record repositories_section : Type := {
  missing_in_1 : list string;
  missing_in_2 : list string;
  rclass_mismatch : list string
}.

Record report : Type := {
  repositories : repositories_section;
  artifacts : option (gmap string (gmap string (list string)))
}.

(** [_artifacts_report()[field] = value]: the record of [key] is created
    on demand in the shared [artifacts_report] and updated in place. *)
Definition set_field (key field : string) (value : list string)
    (artifacts_report : gmap string (gmap string (list string)))
  : gmap string (gmap string (list string)) :=
  alter (<[field := value]>) key (setdefault key ∅ artifacts_report).

(** [_artifacts_report().setdefault("diffs", []).append(uri)]. *)
Definition append_diff (key uri : string)
    (artifacts_report : gmap string (gmap string (list string)))
  : gmap string (gmap string (list string)) :=
  alter (λ record, alter (λ diffs, diffs ++ [uri]) "diffs"
                         (setdefault "diffs" [] record))
        key (setdefault key ∅ artifacts_report).

(** The condition of line 114, [or] evaluated left to right: the [sha2]
    fields are read only when the [sha1] fields are equal. *)
Definition content_differs (item_in_1 item_in_2 : item) : result bool :=
  a1 ← getitem "sha1" item_in_1;
  b1 ← getitem "sha1" item_in_2;
  if decide (a1 ≠ b1) then Ok true
  else
    a2 ← getitem "sha2" item_in_1;
    b2 ← getitem "sha2" item_in_2;
    Ok (bool_decide (a2 ≠ b2)).

Definition repositories_missing_in_1 (repositories_1 repositories_2 : gmap string item)
  : gset string := dom repositories_2 ∖ dom repositories_1.
Definition repositories_missing_in_2 (repositories_1 repositories_2 : gmap string item)
  : gset string := dom repositories_1 ∖ dom repositories_2.
Definition exists_in_both (repositories_1 repositories_2 : gmap string item)
  : gset string := dom repositories_1 ∩ dom repositories_2.

Section diff.

(** The order in which Python walks a set is not specified: the script is
    modelled for any order. *)
Variable set_iter : gset string → list string.
Hypothesis set_iter_perm : ∀ X, set_iter X ≡ₚ elements X.

(** Lines 81-86, one round of the loop. *)
Definition rclass_body (repositories_1 repositories_2 : gmap string item)
    (key : string) (rclass_mismatch : list string) : result (list string) :=
  r1 ← getitem key repositories_1;
  rclass_1 ← getitem "type" r1;
  r2 ← getitem key repositories_2;
  rclass_2 ← getitem "type" r2;
  if decide (rclass_1 ≠ rclass_2)
  then Ok (rclass_mismatch ++ [key])
  else Ok rclass_mismatch.

(** Lines 111-115, one round of the loop. *)
Definition diffs_body (key : string) (items_in_1 items_in_2 : gmap string item)
    (uri : string) (artifacts_report : gmap string (gmap string (list string)))
  : result (gmap string (gmap string (list string))) :=
  item_in_1 ← getitem uri items_in_1;
  item_in_2 ← getitem uri items_in_2;
  differs ← content_differs item_in_1 item_in_2;
  if differs : bool then Ok (append_diff key uri artifacts_report)
  else Ok artifacts_report.

(** Lines 91-115, one round of the loop. *)
Definition artifacts_body (site_1 site_2 : site)
    (repositories_1 : gmap string item)
    (key : string) (artifacts_report : gmap string (gmap string (list string)))
  : result (gmap string (gmap string (list string))) :=
  r1 ← getitem key repositories_1;
  rclass_1 ← getitem "type" r1;
  if decide (rclass_1 ∈ ["VIRTUAL"; "REMOTE"]) then Ok artifacts_report
  else
    items_in_1 ← _list_items site_1 key;
    items_in_2 ← _list_items site_2 key;
    let items_in_1_uris := dom items_in_1 in
    let items_in_2_uris := dom items_in_2 in
    let missing_in_1_uris := items_in_2_uris ∖ items_in_1_uris in
    let missing_in_2_uris := items_in_1_uris ∖ items_in_2_uris in
    let artifacts_report :=
      if decide (missing_in_1_uris ≠ ∅)
      then set_field key "missing_in_1" (set_iter missing_in_1_uris) artifacts_report
      else artifacts_report in
    let artifacts_report :=
      if decide (missing_in_2_uris ≠ ∅)
      then set_field key "missing_in_2" (set_iter missing_in_2_uris) artifacts_report
      else artifacts_report in
    let items_existing_in_both := items_in_1_uris ∩ items_in_2_uris in
    for_each (diffs_body key items_in_1 items_in_2)
             (set_iter items_existing_in_both) artifacts_report.

(** [diff], returning the report it dumps to the standard output. *)
Definition diff (site_1 site_2 : site) (exclude_artifacts : bool)
  : result report :=
  repositories_1 ← _repository_keys site_1;
  repositories_2 ← _repository_keys site_2;
  let missing_in_1 := repositories_missing_in_1 repositories_1 repositories_2 in
  let missing_in_2 := repositories_missing_in_2 repositories_1 repositories_2 in
  let exists_in_both := exists_in_both repositories_1 repositories_2 in
  rclass_mismatch ← for_each (rclass_body repositories_1 repositories_2)
                             (set_iter exists_in_both) [];
  artifacts_report ←
    (if negb exclude_artifacts
     then Some <$> for_each (artifacts_body site_1 site_2 repositories_1)
                            (set_iter exists_in_both) ∅
     else Ok None);
  Ok {| repositories := {| missing_in_1 := set_iter missing_in_1;
                           missing_in_2 := set_iter missing_in_2;
                           rclass_mismatch := rclass_mismatch |};
        artifacts := artifacts_report |}.

End diff.

(** ** The report of one repository, from the words of the specification *)

(** The kind tag a site gives a repository. *)
Definition rclass (repositories : gmap string item) (key : string)
  : option string := repositories !! key ≫= (.!! "type").

Definition aggregating (rclass : string) : Prop :=
  rclass = "VIRTUAL" ∨ rclass = "REMOTE".

(** Either hash differs. *)
Definition sha_mismatch (item_in_1 item_in_2 : item) : Prop :=
  item_in_1 !! "sha1" ≠ item_in_2 !! "sha1" ∨
  item_in_1 !! "sha2" ≠ item_in_2 !! "sha2".

(** The path is on both sides, with different content. *)
Definition differs_at (items_in_1 items_in_2 : gmap string item)
    (uri : string) : Prop :=
  ∃ item_in_1 item_in_2,
    items_in_1 !! uri = Some item_in_1 ∧ items_in_2 !! uri = Some item_in_2 ∧
    sha_mismatch item_in_1 item_in_2.

#[global] Instance sha_mismatch_dec a b : Decision (sha_mismatch a b).
Proof. unfold sha_mismatch. apply _. Defined.

#[global] Instance differs_at_dec i1 i2 uri : Decision (differs_at i1 i2 uri).
Proof.
  unfold differs_at.
  destruct (i1 !! uri) as [a|] eqn:Ha; [|right; by intros (?&?&?&_)].
  destruct (i2 !! uri) as [b|] eqn:Hb; [|right; by intros (?&?&_&?&_)].
  destruct (decide (sha_mismatch a b)) as [H|H].
  - left. by exists a, b.
  - right. intros (a' & b' & [= <-] & [= <-] & ?). done.
Defined.

#[global] Instance aggregating_dec t : Decision (aggregating t).
Proof. unfold aggregating. apply _. Defined.

(** A field is stored only when it has something to say. *)
Definition put (field : string) (value : list string)
    (record : gmap string (list string)) : gmap string (list string) :=
  match value with
  | [] => record
  | _ :: _ => <[field := value]> record
  end.

Definition spec_record (missing_1 missing_2 diffs : list string)
  : gmap string (list string) :=
  put "diffs" diffs (put "missing_in_2" missing_2 (put "missing_in_1" missing_1 ∅)).

(** A repository has a record only when one of its fields is stored. *)
Definition spec_entry (missing_1 missing_2 diffs : list string)
  : option (gmap string (list string)) :=
  match missing_1, missing_2, diffs with
  | [], [], [] => None
  | _, _, _ => Some (spec_record missing_1 missing_2 diffs)
  end.

(** What the specification stores for a repository found on both sides:
    nothing for an aggregating kind (the tag of side 1 decides), else the
    record of the two listings. *)
Definition spec_artifacts_entry (set_iter : gset string → list string)
    (site_1 site_2 : site) (repositories_1 : gmap string item) (key : string)
    (entry : option (gmap string (list string))) : Prop :=
  ∃ rclass_1, rclass repositories_1 key = Some rclass_1 ∧
    if decide (aggregating rclass_1) then entry = None
    else ∃ items_in_1 items_in_2,
      _list_items site_1 key = Ok items_in_1 ∧
      _list_items site_2 key = Ok items_in_2 ∧
      entry = spec_entry
                (set_iter (dom items_in_2 ∖ dom items_in_1))
                (set_iter (dom items_in_1 ∖ dom items_in_2))
                (filter (differs_at items_in_1 items_in_2)
                        (set_iter (dom items_in_1 ∩ dom items_in_2))).


(** The paths a per-repository record reports under a field. *)
Definition reported (artifacts_report : gmap string (gmap string (list string)))
    (key field : string) : list string :=
  default [] (artifacts_report !! key ≫= (.!! field)).

End SitesDiff.

(** * reports.py *)
Module Reports.

(** A report summary or a definition file: [dict[str, Any]], with the
    scalar members the script reads ([id], [name], [report_type]). *)
Abbreviation json_object := (gmap string json).

(** What [POST /xray/api/v1/reports] answers for a page number: an object
    whose ["reports"] member may be absent. *)
Abbreviation page_source := (nat → response (option (list json_object))).

(** [result.get("reports", [])]. *)
Definition reports_of (r : response (option (list json_object)))
  : list json_object := default [] (json_body r).

(** The value of line 50: [definition["id"], definition["name"],
    definition], the members read from left to right. *)
Definition summary_of (definition : json_object)
  : result (json * json * json_object) :=
  report_id ← getitem "id" definition;
  report_name ← getitem "name" definition;
  Ok (report_id, report_name, definition).

(** The generator object between two resumptions: not yet at, or back at,
    the request of line 32 with its [page_num]; suspended at the [yield]
    of line 50 with the records of the page still to come; or finished. *)
Inductive generator : Type :=
  | AtRequest (page_num : nat)
  | InReports (page_num : nat) (rest : list json_object)
  | Exhausted.

(** What one [next()] gives. *)
Inductive resumption : Type :=
  | Yielded (value : json * json * json_object) (g : generator)
  | StopIteration
  | Raised (e : exn).

Definition yield_definition (page_num : nat) (definition : json_object)
    (rest : list json_object) : resumption :=
  match summary_of definition with
  | Ok value => Yielded value (InReports page_num rest)
  | Raise e => Raised e
  end.

Section generator.

Variable fetch : page_source.

(** Lines 32-50, from the request to the first [yield] or the [break]. *)
Definition request_page (page_num : nat) : resumption :=
  let response := fetch page_num in
  match _raise_for_status response with
  | Raise e => Raised e
  | Ok _ =>
      match reports_of response with
      | [] => StopIteration
      | definition :: rest => yield_definition page_num definition rest
      end
  end.

(** One [next()]: the page numbers requested on the way, and the outcome.
    A [for] loop that has run out of records falls through to
    [page_num += 1] and the next request. *)
Definition next (g : generator) : list nat * resumption :=
  match g with
  | AtRequest page_num => ([page_num], request_page page_num)
  | InReports page_num (definition :: rest) =>
      ([], yield_definition page_num definition rest)
  | InReports page_num [] => ([page_num + 1], request_page (page_num + 1))
  | Exhausted => ([], StopIteration)
  end.

(** What a consumer observes: requests sent and values received. *)
Inductive event : Type :=
  | Fetch (page_num : nat)
  | Yield (value : json * json * json_object).

Inductive ending : Type :=
  | Completed
  | Failed (e : exn).

(** [for ... in generator], at most [fuel] resumptions: the events in
    order, and how the iteration ended if it did. *)
Fixpoint consume (fuel : nat) (g : generator) : list event * option ending :=
  match fuel with
  | O => ([], None)
  | S fuel' =>
      let '(fetched, r) := next g in
      match r with
      | Yielded value g' =>
          let '(events, e) := consume fuel' g' in
          (map Fetch fetched ++ Yield value :: events, e)
      | StopIteration => (map Fetch fetched, Some Completed)
      | Raised e => (map Fetch fetched, Some (Failed e))
      end
  end.

(** The generator as [_report_summaries_generator(url, token)] returns
    it: [page_num = 1], nothing run yet. *)
Definition _report_summaries_generator : generator := AtRequest 1.

End generator.

Definition fetches (events : list event) : list nat :=
  omap (λ e, match e with Fetch p => Some p | Yield _ => None end) events.

Definition yields (events : list event) : list (json * json * json_object) :=
  omap (λ e, match e with Yield v => Some v | Fetch _ => None end) events.

(** The values a list of records gives rise to, a record without [id] or
    [name] giving none. *)
Definition summaries (records : list json_object)
  : list (json * json * json_object) :=
  omap (λ d, match summary_of d with Ok v => Some v | Raise _ => None end)
       records.

(** The records of pages [first], ..., [first + count - 1]. *)
Definition records_of_pages (fetch : page_source) (first count : nat)
  : list json_object :=
  concat (map (λ p, reports_of (fetch p)) (seq first count)).

(** Lines 90-98: the endpoint of a report type. *)
Definition uri_type_of (report_type : json) : result string :=
  if decide (report_type = JStr "license") then Ok "licenses"
  else if decide (report_type = JStr "vulnerability") then Ok "vulnerabilities"
  else if decide (report_type = JStr "operational_risk") then Ok "operationalRisks"
  else Raise (UnrecognizedReportType report_type).

(** The closed enumeration of the specification, each report type with
    its endpoint. *)
Definition supported_report_types : list (json * string) :=
  [(JStr "license", "licenses");
   (JStr "vulnerability", "vulnerabilities");
   (JStr "operational_risk", "operationalRisks")].

Section import.

(** What [POST /xray/api/v1/reports/<uri_type>] answers to a payload. *)
Variable post : string → json_object → response unit.

(** Lines 86-107 over the decoded files in the order [rglob] gives them;
    [posted] is the list of the requests sent so far. *)
Fixpoint import_loop (files : list json_object)
    (posted : list (string * json_object))
  : list (string * json_object) * result unit :=
  match files with
  | [] => (posted, Ok tt)
  | definition :: rest =>
      match getitem "report_type" definition ≫= uri_type_of with
      | Raise e => (posted, Raise e)
      | Ok uri_type =>
          let response := post uri_type definition in
          let posted := posted ++ [(uri_type, definition)] in
          match _raise_for_status response with
          | Raise e => (posted, Raise e)
          | Ok _ => import_loop rest posted
          end
      end
  end.

Definition import_definitions (is_dir : bool) (files : list json_object)
  : list (string * json_object) * result unit :=
  if negb is_dir then ([], Raise NotADirectory)
  else import_loop files [].

End import.

End Reports.

(** * reports.py: the two exports *)
Module Exports.
Import Reports.

(** [f"{value}"] on a scalar. *)
Definition py_str (value : json) : string :=
  match value with
  | JNull => "None"
  | JBool true => "True"
  | JBool false => "False"
  | JInt n => pretty n
  | JStr s => s
  end.

(** A file of the output directory: a JSON document written by
    [json.dump], or the bytes written chunk by chunk. *)
Inductive file : Type :=
  | JsonFile (content : json_object)
  | BinaryFile (content : string).

(** The requests the exports send. *)
Inductive request : Type :=
  | PostReports (page_num : nat)
  | GetReport (report_id : string)
  | GetExport (report_id file_name format : string).

(** Lines 61, 65 and 118: the names under [output_dir]. *)
Definition summary_output_path (report_id : json) : string :=
  py_str report_id +:+ "-summary.json".

Definition details_output_path (report_id : json) : string :=
  py_str report_id +:+ "-details.json".

Definition output_path (report_id report_name : json) : string :=
  py_str report_id +:+ "-" +:+ py_str report_name +:+ ".zip".

(** [for chunk in r.iter_content(...): f.write(chunk)]. *)
Definition write_chunks (chunks : list string) : string :=
  foldl String.append "" chunks.

(** The request [export_definitions] sends on an event of the walk. *)
Definition request_of (ev : event) : request :=
  match ev with
  | Fetch page_num => PostReports page_num
  | Yield (report_id, _, _) => GetReport (py_str report_id)
  end.

(** The request [export_contents] sends on an event of the walk. *)
Definition download_of (report_format : string) (ev : event) : request :=
  match ev with
  | Fetch page_num => PostReports page_num
  | Yield (report_id, report_name, _) =>
      GetExport (py_str report_id)
                (py_str report_id +:+ "-" +:+ py_str report_name) report_format
  end.

(** How a run of an export ends: as the walk of the generator does, or
    with the [OSError] of an [open] that fails, for instance the
    [FileNotFoundError] of a name with a [/] whose directory is not there. *)
Inductive export_ending : Type :=
  | Walk (e : ending)
  | OpenFailed (name : string).

Section harvest.

Variable fetch : page_source.

(** What [GET /xray/api/v1/reports/<report_id>] answers. *)
Variable get_report : string → response json_object.

(** What [GET /xray/api/v1/reports/export/<report_id>] answers to the
    parameters [file_name] and [format]: the chunks of the body. *)
Variable get_export : string → string → string → response (list string).

(** Whether [output_dir.joinpath(name).open(...)] succeeds for writing:
    the file system decides, not the script. *)
Variable can_open : string → bool.

(** Lines 60-75 after [output_dir.mkdir]: [files] holds what has been
    written under each name, a file opened for writing replacing one of
    the same name; at most [fuel] resumptions of the generator. *)
Fixpoint export_definitions_loop (fuel : nat) (g : generator)
    (files : gmap string file)
  : list request * gmap string file * option export_ending :=
  match fuel with
  | O => ([], files, None)
  | S fuel' =>
      let '(fetched, r) := next fetch g in
      match r with
      | StopIteration => (map PostReports fetched, files, Some (Walk Completed))
      | Raised e => (map PostReports fetched, files, Some (Walk (Failed e)))
      | Yielded (report_id, report_name, definition) g' =>
          if negb (can_open (summary_output_path report_id))
          then (map PostReports fetched, files,
                Some (OpenFailed (summary_output_path report_id)))
          else
          let files := <[summary_output_path report_id := JsonFile definition]> files in
          let response := get_report (py_str report_id) in
          match _raise_for_status response with
          | Raise e =>
              (map PostReports fetched ++ [GetReport (py_str report_id)],
               files, Some (Walk (Failed e)))
          | Ok _ =>
              if negb (can_open (details_output_path report_id))
              then (map PostReports fetched ++ [GetReport (py_str report_id)],
                    files, Some (OpenFailed (details_output_path report_id)))
              else
              let files :=
                <[details_output_path report_id := JsonFile (json_body response)]>
                  files in
              let '(requests, files', e) :=
                export_definitions_loop fuel' g' files in
              (map PostReports fetched ++ GetReport (py_str report_id) :: requests,
               files', e)
          end
      end
  end.

Definition export_definitions (fuel : nat) (files : gmap string file)
  : list request * gmap string file * option export_ending :=
  export_definitions_loop fuel _report_summaries_generator files.

(** Lines 117-136 after [output_dir.mkdir]: the file is opened only once
    the answer has passed [_raise_for_status]. *)
Fixpoint export_contents_loop (report_format : string) (fuel : nat)
    (g : generator) (files : gmap string file)
  : list request * gmap string file * option export_ending :=
  match fuel with
  | O => ([], files, None)
  | S fuel' =>
      let '(fetched, r) := next fetch g in
      match r with
      | StopIteration => (map PostReports fetched, files, Some (Walk Completed))
      | Raised e => (map PostReports fetched, files, Some (Walk (Failed e)))
      | Yielded (report_id, report_name, definition) g' =>
          let file_name := py_str report_id +:+ "-" +:+ py_str report_name in
          let sent := GetExport (py_str report_id) file_name report_format in
          let r := get_export (py_str report_id) file_name report_format in
          match _raise_for_status r with
          | Raise e =>
              (map PostReports fetched ++ [sent], files, Some (Walk (Failed e)))
          | Ok _ =>
              if negb (can_open (output_path report_id report_name))
              then (map PostReports fetched ++ [sent], files,
                    Some (OpenFailed (output_path report_id report_name)))
              else
              let files :=
                <[output_path report_id report_name
                  := BinaryFile (write_chunks (json_body r))]> files in
              let '(requests, files', e) :=
                export_contents_loop report_format fuel' g' files in
              (map PostReports fetched ++ sent :: requests, files', e)
          end
      end
  end.

Definition export_contents (report_format : string) (fuel : nat)
    (files : gmap string file)
  : list request * gmap string file * option export_ending :=
  export_contents_loop report_format fuel _report_summaries_generator files.

(** What the server answers to the download of a value yielded. *)
Definition export_of (report_format : string) (v : json * json * json_object)
  : response (list string) :=
  get_export (py_str v.1.1) (py_str v.1.1 +:+ "-" +:+ py_str v.1.2)
             report_format.

(** A value that [export_definitions] saves whole: both files can be
    opened and the request for the details is accepted. *)
Definition saves_definition (v : json * json * json_object) : Prop :=
  can_open (summary_output_path v.1.1) = true ∧
  ¬ (400 ≤ status_code (get_report (py_str v.1.1)) < 600) ∧
  can_open (details_output_path v.1.1) = true.

(** A value that [export_contents] saves: the download is accepted and
    the archive can be opened. *)
Definition saves_content (report_format : string)
    (v : json * json * json_object) : Prop :=
  ¬ (400 ≤ status_code (export_of report_format v) < 600) ∧
  can_open (output_path v.1.1 v.1.2) = true.

(** What [export_definitions] does with the events of a walk of the
    generator: a request is passed on, a value yielded is saved and its
    details are requested and saved; a refused request or a file that
    cannot be opened ends the run. *)
Fixpoint save_definitions (events : list event) (e : option export_ending)
    (files : gmap string file)
  : list request * gmap string file * option export_ending :=
  match events with
  | [] => ([], files, e)
  | Fetch page_num :: events' =>
      let '(requests, files', e') := save_definitions events' e files in
      (PostReports page_num :: requests, files', e')
  | Yield (report_id, report_name, definition) :: events' =>
      if negb (can_open (summary_output_path report_id))
      then ([], files, Some (OpenFailed (summary_output_path report_id)))
      else
      let files := <[summary_output_path report_id := JsonFile definition]> files in
      let response := get_report (py_str report_id) in
      match _raise_for_status response with
      | Raise x => ([GetReport (py_str report_id)], files, Some (Walk (Failed x)))
      | Ok _ =>
          if negb (can_open (details_output_path report_id))
          then ([GetReport (py_str report_id)], files,
                Some (OpenFailed (details_output_path report_id)))
          else
          let files :=
            <[details_output_path report_id := JsonFile (json_body response)]>
              files in
          let '(requests, files', e') := save_definitions events' e files in
          (GetReport (py_str report_id) :: requests, files', e')
      end
  end.

(** The same for [export_contents]. *)
Fixpoint save_contents (report_format : string) (events : list event)
    (e : option export_ending) (files : gmap string file)
  : list request * gmap string file * option export_ending :=
  match events with
  | [] => ([], files, e)
  | Fetch page_num :: events' =>
      let '(requests, files', e') :=
        save_contents report_format events' e files in
      (PostReports page_num :: requests, files', e')
  | Yield (report_id, report_name, definition) :: events' =>
      let file_name := py_str report_id +:+ "-" +:+ py_str report_name in
      let sent := GetExport (py_str report_id) file_name report_format in
      let r := get_export (py_str report_id) file_name report_format in
      match _raise_for_status r with
      | Raise x => ([sent], files, Some (Walk (Failed x)))
      | Ok _ =>
          if negb (can_open (output_path report_id report_name))
          then ([sent], files,
                Some (OpenFailed (output_path report_id report_name)))
          else
          let files :=
            <[output_path report_id report_name
              := BinaryFile (write_chunks (json_body r))]> files in
          let '(requests, files', e') :=
            save_contents report_format events' e files in
          (sent :: requests, files', e')
      end
  end.

End harvest.

End Exports.

(** * Example inputs *)
Module Examples.
Import SitesDiff Reports.

Definition repo (key type : string) : gmap string string :=
  {[ "key" := key; "type" := type ]}.

Definition file (uri sha1 sha2 : string) : gmap string string :=
  {[ "uri" := uri; "sha1" := sha1; "sha2" := sha2 ]}.

(** Two sites: [lib-a] is local on both and differs; [lib-b] and [lib-c]
    are on one side each; [lib-v] is virtual on both and differs; [lib-s]
    is local on both and the same; [lib-m] is local on side 1 and remote
    on side 2, and differs. *)
Definition site_1 : site := {|
  api_repositories := Response 200
    [repo "lib-a" "LOCAL"; repo "lib-b" "VIRTUAL"; repo "lib-v" "VIRTUAL";
     repo "lib-s" "LOCAL"; repo "lib-m" "LOCAL"];
  api_storage := λ repository, Response 200 (Some (
    if decide (repository = "lib-a")
    then [file "/x.jar" "h1" "h2"; file "/y.jar" "k1" "k2";
          file "/only-1.jar" "a" "b"]
    else if decide (repository = "lib-v") then [file "/v.jar" "v1" "v2"]
    else if decide (repository = "lib-m") then [file "/m.jar" "m1" "m2"]
    else [file "/s.jar" "s1" "s2"]))
|}.

Definition site_2 : site := {|
  api_repositories := Response 200
    [repo "lib-a" "LOCAL"; repo "lib-c" "LOCAL"; repo "lib-v" "VIRTUAL";
     repo "lib-s" "LOCAL"; repo "lib-m" "REMOTE"];
  api_storage := λ repository, Response 200 (Some (
    if decide (repository = "lib-a")
    then [file "/x.jar" "h1" "h3"; file "/y.jar" "k1" "k2";
          file "/only-2.jar" "a" "b"]
    else if decide (repository = "lib-v")
    then [file "/v.jar" "w1" "w2"; file "/w.jar" "w1" "w2"]
    else if decide (repository = "lib-m") then []
    else [file "/s.jar" "s1" "s2"]))
|}.

Definition repositories_1 : gmap string (gmap string string) :=
  {[ "lib-a" := repo "lib-a" "LOCAL"; "lib-b" := repo "lib-b" "VIRTUAL";
     "lib-v" := repo "lib-v" "VIRTUAL"; "lib-s" := repo "lib-s" "LOCAL";
     "lib-m" := repo "lib-m" "LOCAL" ]}.

Definition repositories_2 : gmap string (gmap string string) :=
  {[ "lib-a" := repo "lib-a" "LOCAL"; "lib-c" := repo "lib-c" "LOCAL";
     "lib-v" := repo "lib-v" "VIRTUAL"; "lib-s" := repo "lib-s" "LOCAL";
     "lib-m" := repo "lib-m" "REMOTE" ]}.

Definition items_a_1 : gmap string (gmap string string) :=
  {[ "/x.jar" := file "/x.jar" "h1" "h2"; "/y.jar" := file "/y.jar" "k1" "k2";
     "/only-1.jar" := file "/only-1.jar" "a" "b" ]}.

Definition items_a_2 : gmap string (gmap string string) :=
  {[ "/x.jar" := file "/x.jar" "h1" "h3"; "/y.jar" := file "/y.jar" "k1" "k2";
     "/only-2.jar" := file "/only-2.jar" "a" "b" ]}.

Definition record_a : gmap string (list string) :=
  {[ "missing_in_1" := ["/only-2.jar"]; "missing_in_2" := ["/only-1.jar"];
     "diffs" := ["/x.jar"] ]}.

Definition artifacts_12 : gmap string (gmap string (list string)) :=
  {[ "lib-a" := record_a; "lib-m" := {[ "missing_in_2" := ["/m.jar"] ]} ]}.

Definition repositories_section_12 : repositories_section := {|
  missing_in_1 := ["lib-c"];
  missing_in_2 := ["lib-b"];
  rclass_mismatch := ["lib-m"]
|}.

(** What [diff] reports for the two sites, with and without the artifacts. *)
Definition report_12 : report := {|
  repositories := repositories_section_12;
  artifacts := Some artifacts_12
|}.

Definition report_12_excluded : report := {|
  repositories := repositories_section_12;
  artifacts := None
|}.

Definition summary (id : Z) (name report_type : string) : gmap string json :=
  {[ "id" := JInt id; "name" := JStr name; "report_type" := JStr report_type ]}.

Definition r1 : gmap string json := summary 1 "alpha" "license".
Definition r2 : gmap string json := summary 2 "beta" "vulnerability".
Definition r3 : gmap string json := summary 3 "gamma" "operational_risk".

(** The pages [[r1, r2]], [[r3]], [[]]. *)
Definition three_pages : page_source := λ page_num,
  Response 200 (Some (match page_num with
                      | 1 => [r1; r2]
                      | 2 => [r3]
                      | _ => []
                      end)).

(** A source whose first page is empty. *)
Definition no_pages : page_source := λ _, Response 200 (Some []).

(** A server that accepts every definition. *)
Definition accept_all (uri_type : string) (definition : gmap string json)
  : response unit := Response 201 tt.

(** A server that refuses every definition. *)
Definition refuse_all (uri_type : string) (definition : gmap string json)
  : response unit := Response 403 tt.

Definition sbom : gmap string json := summary 4 "delta" "sbom".

End Examples.

(** * More example inputs *)
Module MoreExamples.
Import SitesDiff Reports Exports Examples.

(** What [diff] reports with the two example sites swapped: [lib-m],
    remote on what is now side 1, is no longer compared. *)
Definition report_21 : report := {|
  repositories := {| missing_in_1 := ["lib-b"];
                     missing_in_2 := ["lib-c"];
                     rclass_mismatch := ["lib-m"] |};
  artifacts := Some {[ "lib-a" :=
    {[ "missing_in_1" := ["/only-1.jar"]; "missing_in_2" := ["/only-2.jar"];
       "diffs" := ["/x.jar"] ]} ]}
|}.

Definition artifacts_21 : gmap string (gmap string (list string)) :=
  {[ "lib-a" :=
    {[ "missing_in_1" := ["/only-1.jar"]; "missing_in_2" := ["/only-2.jar"];
       "diffs" := ["/x.jar"] ]} ]}.

(** Site 1 with the listing of [lib-a] failing. *)
Definition site_1_down : site := {|
  api_repositories := api_repositories site_1;
  api_storage := λ repository,
    if decide (repository = "lib-a") then Response 503 None
    else api_storage site_1 repository
|}.

(** Site 1 with other answers for the listings that are not asked for. *)
Definition site_1_other : site := {|
  api_repositories := api_repositories site_1;
  api_storage := λ repository,
    if decide (repository = "lib-v") then Response 500 None
    else if decide (repository = "lib-b") then Response 404 None
    else api_storage site_1 repository
|}.

(** A site that lists [lib-a] twice. *)
Definition site_twice : site := {|
  api_repositories := Response 200
    [repo "lib-a" "LOCAL"; repo "lib-b" "LOCAL"; repo "lib-a" "REMOTE"];
  api_storage := λ _, Response 200 (Some [])
|}.

(** One page of records, then a page that the server refuses. *)
Definition pages_then_error : page_source := λ page_num,
  match page_num with
  | 1 => Response 200 (Some [r1; r2])
  | _ => Response 503 None
  end.

Definition nameless : gmap string json := {[ "id" := JInt 7 ]}.

(** One page of records, then a page whose second record has no name. *)
Definition pages_then_nameless : page_source := λ page_num,
  match page_num with
  | 1 => Response 200 (Some [r1; r2])
  | _ => Response 200 (Some [r3; nameless; r1])
  end.

(** A source that never runs out. *)
Definition endless : page_source := λ _, Response 200 (Some [r1]).

(** A server that gives the details of every report, and one that refuses
    those of report 2. *)
Definition details (report_id : string) : response (gmap string json) :=
  Response 200 {[ "report_id" := JStr report_id ]}.

Definition details_but_2 (report_id : string) : response (gmap string json) :=
  if decide (report_id = "2") then Response 404 ∅ else details report_id.

(** A server that exports every report in two chunks, and one that
    refuses the export of report 2. *)
Definition archive (report_id file_name format : string)
  : response (list string) := Response 200 ["PK"; file_name].

Definition archive_but_2 (report_id file_name format : string)
  : response (list string) :=
  if decide (report_id = "2") then Response 500 []
  else archive report_id file_name format.

(** A file system in which every name opens, and one in which only the
    names without [/] do: [output_dir] has no subdirectory. *)
Definition every_name (name : string) : bool := true.

Fixpoint has_slash (name : string) : bool :=
  match name with
  | EmptyString => false
  | String c rest =>
      if decide (String c "" = "/") then true else has_slash rest
  end.

Definition flat_names (name : string) : bool := negb (has_slash name).

(** A report whose name has a [/], and one whose identifier has. *)
Definition slashed : gmap string json := summary 5 "a/b" "license".

Definition odd : gmap string json :=
  {[ "id" := JStr "x/1"; "name" := JStr "odd" ]}.

Definition pages_with_slashed : page_source := λ page_num,
  Response 200 (Some (match page_num with
                      | 1 => [r1; slashed; r2]
                      | _ => []
                      end)).

Definition pages_with_odd : page_source := λ page_num,
  Response 200 (Some (match page_num with
                      | 1 => [r1; odd; r2]
                      | _ => []
                      end)).

Definition nothing : gmap string json := {[ "name" := JStr "nothing" ]}.

(** A server that refuses the vulnerability reports. *)
Definition refuse_vulnerabilities (uri_type : string)
    (definition : gmap string json) : response unit :=
  if decide (uri_type = "vulnerabilities") then Response 400 tt
  else Response 201 tt.

End MoreExamples.

(** * Properties *)

(** ** The error monad *)

Lemma bind_Ok {A B} (m : result A) (f : A → result B) (b : B) :
  m ≫= f = Ok b ↔ ∃ a, m = Ok a ∧ f a = Ok b.
Proof.
  destruct m as [a|e]; simpl; split.
  - intros H. by exists a.
  - by intros (a' & [= <-] & H).
  - discriminate.
  - by intros (a' & ? & _).
Qed.

Lemma fmap_Ok {A B} (m : result A) (f : A → B) (b : B) :
  f <$> m = Ok b ↔ ∃ a, m = Ok a ∧ b = f a.
Proof.
  destruct m as [a|e]; simpl; split.
  - intros [= <-]. by exists a.
  - by intros (a' & [= <-] & ->).
  - discriminate.
  - by intros (a' & ? & _).
Qed.

Lemma getitem_Ok {V} (k : string) (d : gmap string V) (v : V) :
  getitem k d = Ok v ↔ d !! k = Some v.
Proof.
  unfold getitem. destruct (d !! k); split; congruence.
Qed.

Lemma Ok_inj {A} (a b : A) : Ok a = Ok b → a = b.
Proof. by intros [= ->]. Qed.

(** Takes a successful run apart, one statement at a time. *)
Ltac inv_ok :=
  repeat match goal with
  | H : _ ≫= _ = Ok _ |- _ =>
      destruct (proj1 (bind_Ok _ _ _) H) as (? & ? & ?); clear H
  | H : _ <$> _ = Ok _ |- _ =>
      destruct (proj1 (fmap_Ok _ _ _) H) as (? & ? & ?); clear H
  | H : getitem _ _ = Ok _ |- _ => rewrite getitem_Ok in H
  | H : Ok _ = Ok _ |- _ => apply Ok_inj in H
  | H : Raise _ = Ok _ |- _ => discriminate H
  end.

Lemma for_each_app {X S} (body : X → S → result S) (xs ys : list X) (s : S) :
  for_each body (xs ++ ys) s = for_each body xs s ≫= for_each body ys.
Proof.
  revert s. induction xs as [|x xs IH]; intros s; simpl; [done|].
  destruct (body x s) as [s'|e]; simpl; [apply IH | done].
Qed.

(** ** sites_diff.py: the loops *)
Module SitesDiffFacts.
Import SitesDiff.

Lemma aggregating_elem_of (t : string) :
  t ∈ ["VIRTUAL"; "REMOTE"] ↔ aggregating t.
Proof.
  unfold aggregating. rewrite elem_of_cons, list_elem_of_singleton. tauto.
Qed.

(** The condition of line 114 decides [sha_mismatch] when it is
    evaluated without a [KeyError]. *)
Lemma content_differs_Ok (a b : gmap string string) (d : bool) :
  content_differs a b = Ok d → (d = true ↔ sha_mismatch a b).
Proof.
  unfold content_differs, sha_mismatch. intros H. inv_ok.
  rename select (a !! "sha1" = _) into Ha1. rename select (b !! "sha1" = _) into Hb1.
  rewrite Ha1, Hb1. case_decide as Hne.
  - inv_ok. subst d. split; [intros _; left; congruence | done].
  - inv_ok.
    rename select (a !! "sha2" = _) into Ha2. rename select (b !! "sha2" = _) into Hb2.
    rewrite Ha2, Hb2. subst d. rewrite bool_decide_eq_true.
    subst. split.
    + intros ?. right. congruence.
    + intros [?|?]; congruence.
Qed.

Lemma setdefault_insert {V} (k : string) (v : V) (d : gmap string V) :
  setdefault k v d = <[k := default v (d !! k)]> d.
Proof.
  unfold setdefault. destruct (d !! k) as [x|] eqn:Hk; simpl; [|done].
  by rewrite insert_id.
Qed.

Lemma set_field_insert key field value
    (ar : gmap string (gmap string (list string))) :
  set_field key field value ar
  = <[key := <[field := value]> (default ∅ (ar !! key))]> ar.
Proof.
  unfold set_field. by rewrite setdefault_insert, alter_insert_eq.
Qed.

Lemma append_diff_insert key uri
    (ar : gmap string (gmap string (list string))) :
  append_diff key uri ar
  = <[key := <["diffs" := reported ar key "diffs" ++ [uri]]>
               (default ∅ (ar !! key))]> ar.
Proof.
  unfold append_diff, reported.
  rewrite setdefault_insert, alter_insert_eq.
  rewrite setdefault_insert, alter_insert_eq.
  by destruct (ar !! key) as [rec|].
Qed.

Section loops.

Variable set_iter : gset string → list string.
Hypothesis set_iter_perm : ∀ X, set_iter X ≡ₚ elements X.

Lemma elem_of_set_iter (X : gset string) (x : string) :
  x ∈ set_iter X ↔ x ∈ X.
Proof. by rewrite set_iter_perm, elem_of_elements. Qed.

Lemma NoDup_set_iter (X : gset string) : NoDup (set_iter X).
Proof. rewrite set_iter_perm. apply NoDup_elements. Qed.

Lemma set_iter_nil (X : gset string) : set_iter X = [] ↔ X = ∅.
Proof.
  split.
  - intros H. apply set_eq. intros x.
    rewrite <- elem_of_set_iter, H, elem_of_nil, elem_of_empty. tauto.
  - intros ->. apply Permutation_nil_r.
    by rewrite set_iter_perm, elements_empty.
Qed.

Lemma rclass_Some (r : gmap string (gmap string string)) (key t : string) :
  rclass r key = Some t ↔ ∃ it, r !! key = Some it ∧ it !! "type" = Some t.
Proof.
  unfold rclass. destruct (r !! key) as [it|]; cbn.
  - split; [by exists it | by intros (? & [= <-] & ?)].
  - split; [done | by intros (? & ? & _)].
Qed.

Lemma rclass_body_Ok (r1 r2 : gmap string (gmap string string))
    (key : string) (acc out : list string) :
  rclass_body r1 r2 key acc = Ok out →
  ∃ t1 t2, rclass r1 key = Some t1 ∧ rclass r2 key = Some t2 ∧
    out = if decide (t1 ≠ t2) then acc ++ [key] else acc.
Proof.
  unfold rclass_body. intros H. inv_ok.
  eexists _, _. split; [apply rclass_Some; eauto|].
  split; [apply rclass_Some; eauto|].
  case_decide; inv_ok; by subst.
Qed.

(** Lines 81-86: the mismatch list is the walk filtered by the tags, and
    a walk that ends has found a tag for every key on both sides. *)
Lemma rclass_loop (r1 r2 : gmap string (gmap string string))
    (keys acc out : list string) :
  for_each (rclass_body r1 r2) keys acc = Ok out →
  out = acc ++ filter (λ k, rclass r1 k ≠ rclass r2 k) keys ∧
  ∀ k, k ∈ keys → is_Some (rclass r1 k) ∧ is_Some (rclass r2 k).
Proof.
  revert acc. induction keys as [|key keys IH]; intros acc; simpl.
  - intros H. inv_ok. subst. split; [by rewrite app_nil_r|].
    intros k Hk. by apply elem_of_nil in Hk.
  - intros H. inv_ok.
    rename select (rclass_body _ _ _ _ = _) into Hbody.
    rename select (for_each _ _ _ = _) into Hrest.
    apply rclass_body_Ok in Hbody as (t1 & t2 & Hc1 & Hc2 & ->).
    apply IH in Hrest as [-> Hall]. split.
    + rewrite filter_cons, Hc1, Hc2.
      destruct (decide (t1 ≠ t2)) as [Hne|Heq].
      * rewrite decide_True by congruence. by rewrite <- app_assoc.
      * rewrite decide_False; [done|]. intros Hn. apply Hn, f_equal.
        by destruct (decide (t1 = t2)).
    + intros k [->|Hk]%elem_of_cons; [|by apply Hall].
      rewrite Hc1, Hc2. split; eauto.
Qed.

Lemma diffs_body_Ok (key : string) (i1 i2 : gmap string (gmap string string))
    (uri : string) (ar ar' : gmap string (gmap string (list string))) :
  diffs_body key i1 i2 uri ar = Ok ar' →
  ar' = if decide (differs_at i1 i2 uri) then append_diff key uri ar else ar.
Proof.
  unfold diffs_body. intros H. inv_ok.
  rename select (content_differs _ _ = _) into Hc.
  apply content_differs_Ok in Hc.
  rename select (i1 !! uri = _) into H1. rename select (i2 !! uri = _) into H2.
  match goal with Hb : (?b = true ↔ _) |- _ => destruct b end; inv_ok; subst.
  - rewrite decide_True; [done|]. eexists _, _. repeat split; eauto. by apply Hc.
  - rewrite decide_False; [done|].
    intros (a & b & Ha & Hb & Hm). simplify_eq. by apply Hc in Hm.
Qed.

(** Lines 111-115: the paths that differ are appended, in the order of
    the walk, to the ["diffs"] member of the record of [key], which is
    created by the first of them. *)
Lemma diffs_loop (key : string) (i1 i2 : gmap string (gmap string string))
    (uris : list string) (ar ar' : gmap string (gmap string (list string))) :
  for_each (diffs_body key i1 i2) uris ar = Ok ar' →
  ar' = match filter (differs_at i1 i2) uris with
        | [] => ar
        | _ :: _ =>
            <[key := <["diffs" := reported ar key "diffs"
                                  ++ filter (differs_at i1 i2) uris]>
                       (default ∅ (ar !! key))]> ar
        end.
Proof.
  revert ar. induction uris as [|uri uris IH]; intros ar; simpl.
  - intros H. inv_ok. by subst.
  - intros H. inv_ok.
    rename select (diffs_body _ _ _ _ _ = _) into Hbody.
    rename select (for_each _ _ _ = _) into Hrest.
    apply diffs_body_Ok in Hbody. apply IH in Hrest. clear IH.
    rewrite filter_cons. destruct (decide (differs_at i1 i2 uri)) as [Hd|Hd].
    + subst x. rewrite append_diff_insert in Hrest.
      destruct (filter (differs_at i1 i2) uris) as [|u D] eqn:HD.
      * done.
      * rewrite Hrest. unfold reported.
        rewrite !lookup_insert_eq. cbn.
        rewrite !lookup_insert_eq. cbn.
        rewrite !insert_insert_eq. by rewrite <- app_assoc.
    + by subst x.
Qed.

(** Lines 91-115: one round on a key that has no record yet leaves the
    other records alone and stores what the specification asks for. *)
Lemma artifacts_body_Ok (s1 s2 : site) (r1 : gmap string (gmap string string))
    (key : string) (ar ar' : gmap string (gmap string (list string))) :
  ar !! key = None →
  artifacts_body set_iter s1 s2 r1 key ar = Ok ar' →
  (∀ k, k ≠ key → ar' !! k = ar !! k) ∧
  spec_artifacts_entry set_iter s1 s2 r1 key (ar' !! key).
Proof.
  intros Hfresh. unfold artifacts_body, spec_artifacts_entry. intros H. inv_ok.
  rename select (r1 !! key = _) into Hr. rename select (_ !! "type" = _) into Ht.
  assert (Hc : rclass r1 key = Some x0) by (apply rclass_Some; eauto).
  destruct (decide (x0 ∈ ["VIRTUAL"; "REMOTE"])) as [Hagg|Hagg];
    rewrite aggregating_elem_of in Hagg.
  { inv_ok. subst. split; [done|]. exists x0. split; [done|].
    by rewrite decide_True. }
  inv_ok. rename x1 into i1. rename x2 into i2.
  rename select (for_each _ _ _ = _) into Hloop. apply diffs_loop in Hloop.
  set (D := filter (differs_at i1 i2) (set_iter (dom i1 ∩ dom i2))) in *.
  assert (Hgoal :
    (∀ k, k ≠ key → ar' !! k = ar !! k) ∧
    ar' !! key = spec_entry (set_iter (dom i2 ∖ dom i1))
                            (set_iter (dom i1 ∖ dom i2)) D).
  { subst ar'. unfold spec_entry, spec_record, put, reported.
    destruct (decide (dom i2 ∖ dom i1 ≠ ∅)) as [N1|E1];
    destruct (decide (dom i1 ∖ dom i2 ≠ ∅)) as [N2|E2].
    all: try (apply dec_stable in E1; rewrite E1).
    all: try (apply dec_stable in E2; rewrite E2).
    all: rewrite ?(proj2 (set_iter_nil ∅) eq_refl).
    all: try (destruct (set_iter (dom i2 ∖ dom i1)) as [|a A] eqn:HA;
              [by apply set_iter_nil in HA|]).
    all: try (destruct (set_iter (dom i1 ∖ dom i2)) as [|b B] eqn:HB;
              [by apply set_iter_nil in HB|]).
    all: rewrite ?set_field_insert.
    all: destruct D as [|d D'].
    all: split; [intros k Hk; by rewrite ?lookup_insert_ne|].
    all: rewrite ?lookup_insert_eq, ?Hfresh; cbn.
    all: rewrite ?lookup_insert_eq, ?Hfresh; cbn.
    all: rewrite ?lookup_insert_ne, ?lookup_empty by done; cbn.
    all: try done. }
  destruct Hgoal as [Hother Hkey]. split; [done|].
  exists x0. split; [done|]. rewrite decide_False by done.
  by exists i1, i2.
Qed.

(** Lines 91-115, the whole loop: every key of a walk without repetition
    gets what the specification asks for, and nothing else changes. *)
Lemma artifacts_loop (s1 s2 : site) (r1 : gmap string (gmap string string))
    (keys : list string) (ar0 ar : gmap string (gmap string (list string))) :
  NoDup keys →
  (∀ k, k ∈ keys → ar0 !! k = None) →
  for_each (artifacts_body set_iter s1 s2 r1) keys ar0 = Ok ar →
  ∀ k, (k ∉ keys → ar !! k = ar0 !! k) ∧
       (k ∈ keys → spec_artifacts_entry set_iter s1 s2 r1 k (ar !! k)).
Proof.
  revert ar0. induction keys as [|key keys IH]; intros ar0 Hnd Hfresh; simpl.
  - intros H. inv_ok. subst. intros k. split; [done|].
    intros Hk. by apply elem_of_nil in Hk.
  - intros H. inv_ok.
    rename select (artifacts_body _ _ _ _ _ _ = _) into Hbody.
    rename select (for_each _ _ _ = _) into Hrest.
    apply NoDup_cons in Hnd as [Hnotin Hnd].
    apply artifacts_body_Ok in Hbody as [Hother Hkey];
      [|apply Hfresh, elem_of_cons; by left].
    assert (Hfresh' : ∀ k, k ∈ keys → x !! k = None).
    { intros k Hk. rewrite Hother; [|by intros ->].
      apply Hfresh, elem_of_cons. by right. }
    pose proof (IH x Hnd Hfresh' Hrest) as Hall. clear IH Hrest.
    intros k. destruct (Hall k) as [Hout Hin]. split.
    + intros Hk. rewrite elem_of_cons in Hk.
      rewrite Hout by tauto. apply Hother. intros ->. tauto.
    + intros [->|Hk]%elem_of_cons; [|by apply Hin].
      destruct (Hall key) as [Hout' _]. by rewrite Hout'.
Qed.

(** What a run of [diff] that ends has computed. *)
Lemma diff_Ok (s1 s2 : site) (exclude_artifacts : bool) (rep : report) :
  diff set_iter s1 s2 exclude_artifacts = Ok rep →
  ∃ r1 r2,
    _repository_keys s1 = Ok r1 ∧ _repository_keys s2 = Ok r2 ∧
    missing_in_1 (repositories rep) = set_iter (dom r2 ∖ dom r1) ∧
    missing_in_2 (repositories rep) = set_iter (dom r1 ∖ dom r2) ∧
    rclass_mismatch (repositories rep)
      = filter (λ k, rclass r1 k ≠ rclass r2 k) (set_iter (dom r1 ∩ dom r2)) ∧
    (∀ k, k ∈ dom r1 ∩ dom r2 → is_Some (rclass r1 k) ∧ is_Some (rclass r2 k)) ∧
    if exclude_artifacts then artifacts rep = None
    else ∃ ar, artifacts rep = Some ar ∧
      ∀ k, (k ∉ dom r1 ∩ dom r2 → ar !! k = None) ∧
           (k ∈ dom r1 ∩ dom r2 →
            spec_artifacts_entry set_iter s1 s2 r1 k (ar !! k)).
Proof.
  unfold diff, repositories_missing_in_1, repositories_missing_in_2,
    exists_in_both.
  intros H. inv_ok. subst rep. cbn.
  rename select (for_each (rclass_body _ _) _ _ = _) into Hrc.
  apply rclass_loop in Hrc as [-> Htags].
  exists x, x0. do 5 (split; [done|]). split.
  { intros k Hk. by apply Htags, elem_of_set_iter. }
  destruct exclude_artifacts; cbn in *; inv_ok; subst; [done|].
  eexists. split; [done|].
  rename select (for_each _ _ _ = _) into Hloop.
  intros k.
  eapply artifacts_loop with (k := k) in Hloop as [Hout Hin];
    [|apply NoDup_set_iter|intros; apply lookup_empty].
  rewrite elem_of_set_iter in Hout, Hin. split; [|done].
  intros Hk. by rewrite Hout, lookup_empty.
Qed.

(** The record the specification stores, member by member. *)
Lemma spec_entry_None (A B D : list string) :
  spec_entry A B D = None ↔ A = [] ∧ B = [] ∧ D = [].
Proof.
  unfold spec_entry. destruct A, B, D; split; try done; by intros (?&?&?).
Qed.

Lemma spec_record_lookup (A B D : list string) (f : string) :
  spec_record A B D !! f =
    if decide (f = "diffs") then (if decide (D = []) then None else Some D)
    else if decide (f = "missing_in_2")
         then (if decide (B = []) then None else Some B)
    else if decide (f = "missing_in_1")
         then (if decide (A = []) then None else Some A)
    else None.
Proof.
  unfold spec_record, put.
  destruct (decide (f = "diffs")) as [->|N3];
    [|destruct (decide (f = "missing_in_2")) as [->|N2];
      [|destruct (decide (f = "missing_in_1")) as [->|N1]]].
  all: destruct A, B, D; cbn.
  all: by rewrite ?lookup_insert_eq, ?lookup_insert_ne, ?lookup_empty by done.
Qed.

Lemma spec_record_missing_in_1 (A B D : list string) :
  spec_record A B D !! "missing_in_1" = if decide (A = []) then None else Some A.
Proof. rewrite spec_record_lookup. by repeat case_decide. Qed.

Lemma spec_record_missing_in_2 (A B D : list string) :
  spec_record A B D !! "missing_in_2" = if decide (B = []) then None else Some B.
Proof. rewrite spec_record_lookup. by repeat case_decide. Qed.

Lemma spec_record_diffs (A B D : list string) :
  spec_record A B D !! "diffs" = if decide (D = []) then None else Some D.
Proof. rewrite spec_record_lookup. by repeat case_decide. Qed.

Lemma spec_entry_reported (A B D : list string) (f : string) :
  default [] (spec_entry A B D ≫= (.!! f)) =
    if decide (f = "diffs") then D
    else if decide (f = "missing_in_2") then B
    else if decide (f = "missing_in_1") then A
    else [].
Proof.
  destruct (spec_entry A B D) as [rec|] eqn:He.
  - assert (rec = spec_record A B D) as ->.
    { unfold spec_entry in He. destruct A, B, D; congruence. }
    cbn. rewrite spec_record_lookup. by repeat case_decide; subst.
  - apply spec_entry_None in He as (-> & -> & ->). cbn.
    by repeat case_decide.
Qed.

Lemma spec_entry_missing_in_1 (A B D : list string) :
  default [] (spec_entry A B D ≫= (.!! "missing_in_1")) = A.
Proof. rewrite spec_entry_reported. by repeat case_decide. Qed.

Lemma spec_entry_missing_in_2 (A B D : list string) :
  default [] (spec_entry A B D ≫= (.!! "missing_in_2")) = B.
Proof. rewrite spec_entry_reported. by repeat case_decide. Qed.

Lemma spec_entry_diffs (A B D : list string) :
  default [] (spec_entry A B D ≫= (.!! "diffs")) = D.
Proof. rewrite spec_entry_reported. by repeat case_decide. Qed.

Lemma compared_entry (s1 s2 : site) (exclude_artifacts : bool) (rep : report)
    (r1 r2 : gmap string (gmap string string)) (key t : string)
    (i1 i2 : gmap string (gmap string string))
    (ar : gmap string (gmap string (list string))) :
  diff set_iter s1 s2 exclude_artifacts = Ok rep →
  artifacts rep = Some ar →
  _repository_keys s1 = Ok r1 → _repository_keys s2 = Ok r2 →
  key ∈ dom r1 → key ∈ dom r2 →
  rclass r1 key = Some t → ¬ aggregating t →
  _list_items s1 key = Ok i1 → _list_items s2 key = Ok i2 →
  ar !! key = spec_entry (set_iter (dom i2 ∖ dom i1))
                         (set_iter (dom i1 ∖ dom i2))
                         (filter (differs_at i1 i2) (set_iter (dom i1 ∩ dom i2))).
Proof.
  intros Hdiff Har H1 H2 Hk1 Hk2 Ht Hagg Hl1 Hl2.
  apply diff_Ok in Hdiff as (r1' & r2' & H1' & H2' & _ & _ & _ & _ & Hart).
  rewrite H1 in H1'. rewrite H2 in H2'. simplify_eq.
  destruct exclude_artifacts; [congruence|].
  destruct Hart as (ar' & Har' & Hall). simplify_eq.
  destruct (Hall key) as [_ Hin].
  destruct Hin as (t' & Ht' & Hentry); [apply elem_of_intersection; by split|].
  simplify_eq.
  rewrite decide_False in Hentry by done.
  destruct Hentry as (i1' & i2' & Hl1' & Hl2' & ->).
  rewrite Hl1 in Hl1'. rewrite Hl2 in Hl2'. by simplify_eq.
Qed.

Lemma compared_record (s1 s2 : site) (exclude_artifacts : bool) (rep : report)
    (ar : gmap string (gmap string (list string)))
    (key : string) (rec : gmap string (list string)) :
  diff set_iter s1 s2 exclude_artifacts = Ok rep →
  artifacts rep = Some ar →
  ar !! key = Some rec →
  ∃ r1 r2 t i1 i2,
    _repository_keys s1 = Ok r1 ∧ _repository_keys s2 = Ok r2 ∧
    key ∈ dom r1 ∧ key ∈ dom r2 ∧
    rclass r1 key = Some t ∧ ¬ aggregating t ∧
    _list_items s1 key = Ok i1 ∧ _list_items s2 key = Ok i2 ∧
    spec_entry (set_iter (dom i2 ∖ dom i1)) (set_iter (dom i1 ∖ dom i2))
               (filter (differs_at i1 i2) (set_iter (dom i1 ∩ dom i2)))
    = Some rec.
Proof.
  intros Hdiff Har Hrec.
  apply diff_Ok in Hdiff as (r1 & r2 & H1 & H2 & _ & _ & _ & _ & Hart).
  destruct exclude_artifacts; [congruence|].
  destruct Hart as (ar' & Har' & Hall). simplify_eq.
  destruct (Hall key) as [Hout Hin].
  destruct (decide (key ∈ dom r1 ∩ dom r2)) as [Hk|Hk];
    [|rewrite Hout in Hrec; done].
  destruct (Hin Hk) as (t & Ht & Hentry).
  destruct (decide (aggregating t)) as [Hagg|Hagg]; [congruence|].
  destruct Hentry as (i1 & i2 & Hl1 & Hl2 & Hentry).
  exists r1, r2, t, i1, i2. rewrite <- Hentry, Hrec.
  apply elem_of_intersection in Hk as [??]. by repeat split.
Qed.

End loops.

(** ** sites_diff.py: the report *)
Section report.

Variable set_iter : gset string → list string.
Hypothesis set_iter_perm : ∀ X, set_iter X ≡ₚ elements X.

(** C2. The repository identifiers reported missing on side 1 are those of
    side 2 only, the ones reported missing on side 2 are those of side 1
    only; the two are disjoint, and with [exists_in_both] they split the
    union of the identifiers of the two sides into three parts. *)
Theorem repositories_partition (site_1 site_2 : site)
    (exclude_artifacts : bool) (rep : report) :
  diff set_iter site_1 site_2 exclude_artifacts = Ok rep →
  ∃ repositories_1 repositories_2,
    _repository_keys site_1 = Ok repositories_1 ∧
    _repository_keys site_2 = Ok repositories_2 ∧
    let m1 : gset string := list_to_set (missing_in_1 (repositories rep)) in
    let m2 : gset string := list_to_set (missing_in_2 (repositories rep)) in
    let both := exists_in_both repositories_1 repositories_2 in
    NoDup (missing_in_1 (repositories rep)) ∧
    NoDup (missing_in_2 (repositories rep)) ∧
    m1 = dom repositories_2 ∖ dom repositories_1 ∧
    m2 = dom repositories_1 ∖ dom repositories_2 ∧
    m1 ## m2 ∧ m1 ## both ∧ m2 ## both ∧
    m1 ∪ m2 ∪ both = dom repositories_1 ∪ dom repositories_2.
Proof.
  intros Hdiff.
  apply (diff_Ok set_iter set_iter_perm) in Hdiff
    as (r1 & r2 & H1 & H2 & Hm1 & Hm2 & _).
  exists r1, r2. do 2 (split; [done|]). cbn zeta.
  rewrite Hm1, Hm2. unfold exists_in_both.
  assert (Hset : ∀ X : gset string, list_to_set (set_iter X) = X).
  { intros X. apply set_eq. intros x.
    by rewrite elem_of_list_to_set, elem_of_set_iter. }
  rewrite !Hset.
  do 2 (split; [by apply NoDup_set_iter|]).
  do 2 (split; [done|]).
  repeat split.
  - intros x [? ?]%elem_of_difference [? ?]%elem_of_difference. done.
  - intros x [? ?]%elem_of_difference [? ?]%elem_of_intersection. done.
  - intros x [? ?]%elem_of_difference [? ?]%elem_of_intersection. done.
  - apply set_eq. intros x.
    rewrite !elem_of_union, !elem_of_difference, elem_of_intersection.
    destruct (decide (x ∈ dom r1)), (decide (x ∈ dom r2)); tauto.
Qed.

(** C5. [rclass_mismatch] lies within [exists_in_both] and holds exactly the
    identifiers that both sides list with different type tags; an identifier
    that both sides list with the same tag is in neither missing list nor in
    the mismatch list. *)
Theorem rclass_mismatch_exact (site_1 site_2 : site)
    (exclude_artifacts : bool) (rep : report) :
  diff set_iter site_1 site_2 exclude_artifacts = Ok rep →
  ∃ repositories_1 repositories_2,
    _repository_keys site_1 = Ok repositories_1 ∧
    _repository_keys site_2 = Ok repositories_2 ∧
    (∀ id, id ∈ rclass_mismatch (repositories rep) →
           id ∈ exists_in_both repositories_1 repositories_2) ∧
    (∀ id, id ∈ rclass_mismatch (repositories rep) ↔
           ∃ rclass_1 rclass_2,
             rclass repositories_1 id = Some rclass_1 ∧
             rclass repositories_2 id = Some rclass_2 ∧
             rclass_1 ≠ rclass_2) ∧
    (∀ id tag,
       rclass repositories_1 id = Some tag →
       rclass repositories_2 id = Some tag →
       (id ∉ missing_in_1 (repositories rep)) ∧
       (id ∉ missing_in_2 (repositories rep)) ∧
       (id ∉ rclass_mismatch (repositories rep))).
Proof.
  intros Hdiff.
  apply (diff_Ok set_iter set_iter_perm) in Hdiff
    as (r1 & r2 & H1 & H2 & Hm1 & Hm2 & Hmm & Htags & _).
  exists r1, r2. do 2 (split; [done|]).
  rewrite Hm1, Hm2, Hmm. unfold exists_in_both.
  assert (Hdom : ∀ (r : gmap string (gmap string string)) id tag,
            rclass r id = Some tag → id ∈ dom r).
  { intros r id tag (it & Hit & _)%rclass_Some. apply elem_of_dom. eauto. }
  split; [|split].
  - intros id [_ Hin]%list_elem_of_filter. by apply elem_of_set_iter in Hin.
  - intros id. rewrite list_elem_of_filter, elem_of_set_iter by done. split.
    + intros [Hne Hin]. destruct (Htags id Hin) as [[t1 Ht1] [t2 Ht2]].
      exists t1, t2. do 2 (split; [done|]). congruence.
    + intros (t1 & t2 & Ht1 & Ht2 & Hne). split; [congruence|].
      apply elem_of_intersection. split; eapply Hdom; eauto.
  - intros id tag Ht1 Ht2.
    rewrite !elem_of_set_iter, list_elem_of_filter, !elem_of_difference by done.
    apply Hdom in Ht1 as Hd1. apply Hdom in Ht2 as Hd2.
    repeat split; [tauto|tauto|]. intros [Hne _]. congruence.
Qed.

(** C3. In a repository that the artifact differ compares, a path listed on
    both sides is reported under ["diffs"] exactly when the [sha1] values
    differ or the [sha2] values differ. *)
Theorem diffs_iff_either_hash_differs (site_1 site_2 : site) (rep : report)
    (artifacts_report : gmap string (gmap string (list string)))
    (repositories_1 repositories_2 : gmap string (gmap string string))
    (key rclass_1 : string)
    (items_in_1 items_in_2 : gmap string (gmap string string))
    (uri : string) (item_in_1 item_in_2 : gmap string string) :
  diff set_iter site_1 site_2 false = Ok rep →
  artifacts rep = Some artifacts_report →
  _repository_keys site_1 = Ok repositories_1 →
  _repository_keys site_2 = Ok repositories_2 →
  key ∈ exists_in_both repositories_1 repositories_2 →
  rclass repositories_1 key = Some rclass_1 →
  ¬ aggregating rclass_1 →
  _list_items site_1 key = Ok items_in_1 →
  _list_items site_2 key = Ok items_in_2 →
  items_in_1 !! uri = Some item_in_1 →
  items_in_2 !! uri = Some item_in_2 →
  uri ∈ reported artifacts_report key "diffs" ↔
    item_in_1 !! "sha1" ≠ item_in_2 !! "sha1" ∨
    item_in_1 !! "sha2" ≠ item_in_2 !! "sha2".
Proof.
  intros Hdiff Har H1 H2 Hk Ht Hagg Hl1 Hl2 Hu1 Hu2.
  unfold exists_in_both in Hk. apply elem_of_intersection in Hk as [Hk1 Hk2].
  unfold reported.
  rewrite (compared_entry set_iter set_iter_perm _ _ _ _ _ _ _ _ _ _ _
             Hdiff Har H1 H2 Hk1 Hk2 Ht Hagg Hl1 Hl2).
  rewrite spec_entry_diffs.
  rewrite list_elem_of_filter, elem_of_set_iter, elem_of_intersection by done.
  split.
  - intros [(a & b & Ha & Hb & Hm) _]. by simplify_eq.
  - intros Hm. split; [by exists item_in_1, item_in_2|].
    split; apply elem_of_dom; eauto.
Qed.

(** C4. A repository that both sides list and whose type tag (the one of
    side 1, which is the one the script tests, hence also when both sides
    agree on it) is [VIRTUAL] or [REMOTE] is never a key of the artifacts
    map, whatever the two sites answer for its files. *)
Theorem aggregating_never_in_artifacts (site_1 site_2 : site)
    (exclude_artifacts : bool) (rep : report)
    (repositories_1 repositories_2 : gmap string (gmap string string))
    (key rclass_1 : string)
    (artifacts_report : gmap string (gmap string (list string))) :
  diff set_iter site_1 site_2 exclude_artifacts = Ok rep →
  _repository_keys site_1 = Ok repositories_1 →
  _repository_keys site_2 = Ok repositories_2 →
  key ∈ exists_in_both repositories_1 repositories_2 →
  rclass repositories_1 key = Some rclass_1 →
  aggregating rclass_1 →
  artifacts rep = Some artifacts_report →
  artifacts_report !! key = None.
Proof.
  intros Hdiff H1 H2 Hk Ht Hagg Har.
  destruct (artifacts_report !! key) as [rec|] eqn:Hrec; [exfalso|done].
  destruct (compared_record set_iter set_iter_perm _ _ _ _ _ _ _ Hdiff Har Hrec)
    as (r1 & r2 & t & i1 & i2 & H1' & _ & _ & _ & Ht' & Hagg' & _).
  rewrite H1 in H1'. by simplify_eq.
Qed.

(** C6. A repository is a key of the artifacts map only if one of its three
    sets (paths missing on side 1, paths missing on side 2, paths that
    differ) is not empty; a repository whose two listings have the same
    paths with the same content is not a key. *)
Theorem artifacts_key_only_if_nonempty (site_1 site_2 : site)
    (exclude_artifacts : bool) (rep : report)
    (artifacts_report : gmap string (gmap string (list string))) :
  diff set_iter site_1 site_2 exclude_artifacts = Ok rep →
  artifacts rep = Some artifacts_report →
  (∀ key record,
     artifacts_report !! key = Some record →
     ∃ items_in_1 items_in_2,
       _list_items site_1 key = Ok items_in_1 ∧
       _list_items site_2 key = Ok items_in_2 ∧
       (dom items_in_2 ∖ dom items_in_1 ≠ ∅ ∨
        dom items_in_1 ∖ dom items_in_2 ≠ ∅ ∨
        ∃ uri, differs_at items_in_1 items_in_2 uri)) ∧
  (∀ key items_in_1 items_in_2,
     _list_items site_1 key = Ok items_in_1 →
     _list_items site_2 key = Ok items_in_2 →
     dom items_in_1 = dom items_in_2 →
     (∀ uri, ¬ differs_at items_in_1 items_in_2 uri) →
     artifacts_report !! key = None).
Proof.
  intros Hdiff Har.
  assert (Honly : ∀ key record,
     artifacts_report !! key = Some record →
     ∃ items_in_1 items_in_2,
       _list_items site_1 key = Ok items_in_1 ∧
       _list_items site_2 key = Ok items_in_2 ∧
       (dom items_in_2 ∖ dom items_in_1 ≠ ∅ ∨
        dom items_in_1 ∖ dom items_in_2 ≠ ∅ ∨
        ∃ uri, differs_at items_in_1 items_in_2 uri)).
  { intros key rec Hrec.
    destruct (compared_record set_iter set_iter_perm _ _ _ _ _ _ _ Hdiff Har Hrec)
      as (r1 & r2 & t & i1 & i2 & _ & _ & _ & _ & _ & _ & Hl1 & Hl2 & Hentry).
    exists i1, i2. do 2 (split; [done|]).
    destruct (decide (dom i2 ∖ dom i1 = ∅)) as [E1|N1]; [|by left].
    destruct (decide (dom i1 ∖ dom i2 = ∅)) as [E2|N2]; [|by right; left].
    right; right.
    destruct (filter (differs_at i1 i2) (set_iter (dom i1 ∩ dom i2)))
      as [|uri D] eqn:HD.
    - rewrite E1, E2, (proj2 (set_iter_nil set_iter set_iter_perm ∅) eq_refl)
        in Hentry. done.
    - exists uri. assert (Hin : uri ∈ uri :: D) by (apply elem_of_cons; by left).
      rewrite <- HD in Hin. by apply list_elem_of_filter in Hin as [? _]. }
  split; [done|].
  intros key i1 i2 Hl1 Hl2 Hdom Hsame.
  destruct (artifacts_report !! key) as [rec|] eqn:Hrec; [exfalso|done].
  destruct (Honly key rec Hrec) as (i1' & i2' & Hl1' & Hl2' & Hsome).
  rewrite Hl1 in Hl1'. rewrite Hl2 in Hl2'. simplify_eq.
  rewrite Hdom in Hsome.
  assert (Hself : dom i2' ∖ dom i2' = (∅ : gset string)).
  { apply set_eq. intros x. rewrite elem_of_difference, elem_of_empty. tauto. }
  destruct Hsome as [N|[N|[uri Hd]]]; [done|done|]. by apply (Hsame uri).
Qed.

(** C7. In the record of a repository no path is both under ["diffs"] and
    under ["missing_in_1"] or ["missing_in_2"]: the paths under ["diffs"]
    are on both sides, those under ["missing_in_1"] on side 2 only, those
    under ["missing_in_2"] on side 1 only. *)
Theorem diffs_disjoint_from_missing (site_1 site_2 : site)
    (exclude_artifacts : bool) (rep : report)
    (artifacts_report : gmap string (gmap string (list string))) :
  diff set_iter site_1 site_2 exclude_artifacts = Ok rep →
  artifacts rep = Some artifacts_report →
  (∀ key uri,
     uri ∈ reported artifacts_report key "diffs" →
     (uri ∉ reported artifacts_report key "missing_in_1") ∧
     (uri ∉ reported artifacts_report key "missing_in_2")) ∧
  (∀ key record,
     artifacts_report !! key = Some record →
     ∃ items_in_1 items_in_2,
       _list_items site_1 key = Ok items_in_1 ∧
       _list_items site_2 key = Ok items_in_2 ∧
       ∀ uri,
         (uri ∈ reported artifacts_report key "diffs" →
          uri ∈ dom items_in_1 ∧ uri ∈ dom items_in_2) ∧
         (uri ∈ reported artifacts_report key "missing_in_1" →
          (uri ∉ dom items_in_1) ∧ uri ∈ dom items_in_2) ∧
         (uri ∈ reported artifacts_report key "missing_in_2" →
          uri ∈ dom items_in_1 ∧ (uri ∉ dom items_in_2))).
Proof.
  intros Hdiff Har.
  assert (Hwhere : ∀ key record,
     artifacts_report !! key = Some record →
     ∃ items_in_1 items_in_2,
       _list_items site_1 key = Ok items_in_1 ∧
       _list_items site_2 key = Ok items_in_2 ∧
       ∀ uri,
         (uri ∈ reported artifacts_report key "diffs" →
          uri ∈ dom items_in_1 ∧ uri ∈ dom items_in_2) ∧
         (uri ∈ reported artifacts_report key "missing_in_1" →
          (uri ∉ dom items_in_1) ∧ uri ∈ dom items_in_2) ∧
         (uri ∈ reported artifacts_report key "missing_in_2" →
          uri ∈ dom items_in_1 ∧ (uri ∉ dom items_in_2))).
  { intros key rec Hrec.
    destruct (compared_record set_iter set_iter_perm _ _ _ _ _ _ _ Hdiff Har Hrec)
      as (r1 & r2 & t & i1 & i2 & _ & _ & _ & _ & _ & _ & Hl1 & Hl2 & Hentry).
    exists i1, i2. do 2 (split; [done|]). intros uri.
    unfold reported. rewrite Hrec, <- Hentry.
    rewrite spec_entry_diffs, spec_entry_missing_in_1, spec_entry_missing_in_2.
    rewrite list_elem_of_filter, !elem_of_set_iter by done.
    rewrite elem_of_intersection, !elem_of_difference. tauto. }
  split; [|done].
  intros key uri Hin.
  destruct (artifacts_report !! key) as [rec|] eqn:Hrec.
  - destruct (Hwhere key rec Hrec) as (i1 & i2 & _ & _ & Hall).
    destruct (Hall uri) as (Hd & Hm1 & Hm2). tauto.
  - unfold reported in Hin. rewrite Hrec in Hin. by apply elem_of_nil in Hin.
Qed.

(** C8. With [exclude_artifacts] set the report has no artifacts section,
    and its repositories section is the one of the set differences, the
    same as a run that compares the artifacts produces. *)
Theorem exclude_artifacts_omits_section (site_1 site_2 : site) (rep : report) :
  diff set_iter site_1 site_2 true = Ok rep →
  artifacts rep = None ∧
  (∃ repositories_1 repositories_2,
     _repository_keys site_1 = Ok repositories_1 ∧
     _repository_keys site_2 = Ok repositories_2 ∧
     repositories rep =
       {| missing_in_1 :=
            set_iter (repositories_missing_in_1 repositories_1 repositories_2);
          missing_in_2 :=
            set_iter (repositories_missing_in_2 repositories_1 repositories_2);
          rclass_mismatch :=
            filter (λ key, rclass repositories_1 key ≠ rclass repositories_2 key)
                   (set_iter (exists_in_both repositories_1 repositories_2)) |}) ∧
  (∀ rep', diff set_iter site_1 site_2 false = Ok rep' →
           repositories rep' = repositories rep).
Proof.
  intros Hdiff.
  pose proof (diff_Ok set_iter set_iter_perm _ _ _ _ Hdiff)
    as (r1 & r2 & H1 & H2 & Hm1 & Hm2 & Hmm & _ & Hart).
  split; [done|]. split.
  - exists r1, r2. do 2 (split; [done|]).
    unfold repositories_missing_in_1, repositories_missing_in_2, exists_in_both.
    destruct (repositories rep). cbn in *. by subst.
  - intros rep' Hdiff'.
    pose proof (diff_Ok set_iter set_iter_perm _ _ _ _ Hdiff')
      as (r1' & r2' & H1' & H2' & Hm1' & Hm2' & Hmm' & _).
    rewrite H1 in H1'. rewrite H2 in H2'. simplify_eq.
    destruct (repositories rep), (repositories rep'). cbn in *. by subst.
Qed.

(** C10. In the record of a repository each of the members ["missing_in_1"],
    ["missing_in_2"] and ["diffs"] is present exactly when the set it holds
    is not empty; a record has no other member and no empty list. *)
Theorem record_fields_present_iff_nonempty (site_1 site_2 : site)
    (exclude_artifacts : bool) (rep : report)
    (artifacts_report : gmap string (gmap string (list string)))
    (key : string) (record : gmap string (list string)) :
  diff set_iter site_1 site_2 exclude_artifacts = Ok rep →
  artifacts rep = Some artifacts_report →
  artifacts_report !! key = Some record →
  ∃ items_in_1 items_in_2,
    _list_items site_1 key = Ok items_in_1 ∧
    _list_items site_2 key = Ok items_in_2 ∧
    (is_Some (record !! "missing_in_1") ↔
     dom items_in_2 ∖ dom items_in_1 ≠ ∅) ∧
    (is_Some (record !! "missing_in_2") ↔
     dom items_in_1 ∖ dom items_in_2 ≠ ∅) ∧
    (is_Some (record !! "diffs") ↔
     ∃ uri, differs_at items_in_1 items_in_2 uri) ∧
    (∀ field paths,
       record !! field = Some paths →
       paths ≠ [] ∧ field ∈ ["missing_in_1"; "missing_in_2"; "diffs"]).
Proof.
  intros Hdiff Har Hrec.
  destruct (compared_record set_iter set_iter_perm _ _ _ _ _ _ _ Hdiff Har Hrec)
    as (r1 & r2 & t & i1 & i2 & _ & _ & _ & _ & _ & _ & Hl1 & Hl2 & Hentry).
  exists i1, i2. do 2 (split; [done|]).
  set (A := set_iter (dom i2 ∖ dom i1)) in *.
  set (B := set_iter (dom i1 ∖ dom i2)) in *.
  set (D := filter (differs_at i1 i2) (set_iter (dom i1 ∩ dom i2))) in *.
  assert (record = spec_record A B D) as ->.
  { unfold spec_entry in Hentry. destruct A, B, D; congruence. }
  assert (HA : A = [] ↔ dom i2 ∖ dom i1 = ∅) by by apply set_iter_nil.
  assert (HB : B = [] ↔ dom i1 ∖ dom i2 = ∅) by by apply set_iter_nil.
  assert (HD : D ≠ [] ↔ ∃ uri, differs_at i1 i2 uri).
  { split.
    - destruct D as [|uri D'] eqn:E; [done|]. intros _. exists uri.
      assert (Hin : uri ∈ D) by (rewrite E; apply elem_of_cons; by left).
      by apply list_elem_of_filter in Hin as [? _].
    - intros [uri Hd] E.
      assert (Hin : uri ∈ D).
      { apply list_elem_of_filter. split; [done|].
        apply elem_of_set_iter; [done|].
        destruct Hd as (a & b & Ha & Hb & _).
        apply elem_of_intersection. split; apply elem_of_dom; eauto. }
      rewrite E in Hin. by apply elem_of_nil in Hin. }
  rewrite spec_record_missing_in_1, spec_record_missing_in_2, spec_record_diffs.
  repeat split.
  - intros Hs E. apply HA in E. rewrite decide_True in Hs by done.
    by destruct Hs.
  - intros N. rewrite decide_False; [eauto|]. intros E. by apply N, HA.
  - intros Hs E. apply HB in E. rewrite decide_True in Hs by done.
    by destruct Hs.
  - intros N. rewrite decide_False; [eauto|]. intros E. by apply N, HB.
  - intros Hs. apply HD. intros E. rewrite decide_True in Hs by done.
    by destruct Hs.
  - intros Hd. apply HD in Hd. rewrite decide_False by done. eauto.
  - rename select (spec_record _ _ _ !! _ = _) into Hf.
    rewrite spec_record_lookup in Hf.
    repeat case_decide; by simplify_eq.
  - rename select (spec_record _ _ _ !! _ = _) into Hf.
    rewrite spec_record_lookup in Hf.
    rewrite !elem_of_cons.
    repeat case_decide; simplify_eq; tauto.
Qed.

End report.

(** ** sites_diff.py: when a run ends *)
Section total.

Variable set_iter : gset string → list string.
Hypothesis set_iter_perm : ∀ X, set_iter X ≡ₚ elements X.







End total.

End SitesDiffFacts.

(** ** reports.py *)
Module ReportsFacts.
Import Reports.

Section walk.

Variable fetch : page_source.

Lemma summaries_Forall2 (records : list json_object) :
  (∀ d, d ∈ records → is_Some (d !! "id") ∧ is_Some (d !! "name")) →
  Forall2 (λ d v, summary_of d = Ok v) records (summaries records).
Proof.
  induction records as [|d records IH]; intros Hwf; [constructor|].
  destruct (Hwf d) as [[i Hi] [n Hn]]; [apply elem_of_cons; by left|].
  assert (Hd : summary_of d = Ok (i, n, d)).
  { unfold summary_of, getitem. by rewrite Hi, Hn. }
  unfold summaries. cbn. rewrite Hd. constructor; [done|].
  apply IH. intros d' Hd'. apply Hwf, elem_of_cons. by right.
Qed.

(** A [for] loop that has run out of records goes on as the request of the
    next page does. *)
Lemma consume_InReports_nil (fuel page_num : nat) :
  consume fetch fuel (InReports page_num [])
  = consume fetch fuel (AtRequest (page_num + 1)).
Proof. by destruct fuel. Qed.

(** Lines 49-50: the records left in a page are yielded one resumption
    each, in order, without a request. *)
Lemma consume_rest (page_num : nat) (rest : list json_object)
    (values : list (json * json * json_object)) (fuel : nat) :
  Forall2 (λ d v, summary_of d = Ok v) rest values →
  consume fetch (length rest + fuel) (InReports page_num rest)
  = (map Yield values ++ (consume fetch fuel (AtRequest (page_num + 1))).1,
     (consume fetch fuel (AtRequest (page_num + 1))).2).
Proof.
  induction 1 as [|d v rest values Hd _ IH]; cbn [length Nat.add map app].
  - rewrite consume_InReports_nil. by destruct (consume _ _ _).
  - cbn [consume next]. unfold yield_definition. rewrite Hd, IH. done.
Qed.

(** Lines 32-51: a page with records costs one request and yields them. *)
Lemma consume_page (page_num : nat)
    (values : list (json * json * json_object)) (fuel : nat) :
  _raise_for_status (fetch page_num) = Ok tt →
  reports_of (fetch page_num) ≠ [] →
  Forall2 (λ d v, summary_of d = Ok v) (reports_of (fetch page_num)) values →
  consume fetch (length values + fuel) (AtRequest page_num)
  = (Fetch page_num :: map Yield values
       ++ (consume fetch fuel (AtRequest (page_num + 1))).1,
     (consume fetch fuel (AtRequest (page_num + 1))).2).
Proof.
  intros Hok Hne Hvals.
  destruct (reports_of (fetch page_num)) as [|d rest] eqn:Hreports; [done|].
  inversion Hvals as [|? v ? values' Hd Hrest]; subst.
  cbn [length Nat.add consume next]. unfold request_page.
  rewrite Hok, Hreports. unfold yield_definition. rewrite Hd.
  rewrite <- (Forall2_length _ _ _ Hrest).
  rewrite (consume_rest _ _ _ _ Hrest). done.
Qed.

(** Line 47: an empty page costs one request and ends the iteration. *)
Lemma consume_empty_page (page_num fuel : nat) :
  _raise_for_status (fetch page_num) = Ok tt →
  reports_of (fetch page_num) = [] →
  consume fetch (S fuel) (AtRequest page_num)
  = ([Fetch page_num], Some Completed).
Proof.
  intros Hok Hempty. cbn [consume next]. unfold request_page.
  by rewrite Hok, Hempty.
Qed.

(** The events of [count] pages with records, from page [first] on. *)
Lemma consume_walk (count first fuel : nat) :
  (∀ p, first ≤ p ≤ first + count → _raise_for_status (fetch p) = Ok tt) →
  (∀ p, first ≤ p < first + count → reports_of (fetch p) ≠ []) →
  reports_of (fetch (first + count)) = [] →
  (∀ p d, first ≤ p < first + count → d ∈ reports_of (fetch p) →
          is_Some (d !! "id") ∧ is_Some (d !! "name")) →
  consume fetch (length (records_of_pages fetch first count) + S fuel)
          (AtRequest first)
  = (flat_map (λ p, Fetch p :: map Yield (summaries (reports_of (fetch p))))
              (seq first count)
       ++ [Fetch (first + count)],
     Some Completed).
Proof.
  revert first. induction count as [|count IH]; intros first Hok Hne Hempty Hwf.
  - cbn. rewrite Nat.add_0_r in *. by apply consume_empty_page; [apply Hok; lia|].
  - unfold records_of_pages. cbn [seq map concat flat_map].
    rewrite length_app, <- Nat.add_assoc.
    assert (Hvals := summaries_Forall2 (reports_of (fetch first))
                       (λ d, Hwf first d ltac:(lia))).
    rewrite (Forall2_length _ _ _ Hvals).
    rewrite (consume_page _ _ _ (Hok first ltac:(lia)) (Hne first ltac:(lia)) Hvals).
    replace (first + 1) with (S first) by lia.
    fold (records_of_pages fetch (S first) count).
    rewrite (IH (S first)).
    + cbn. rewrite <- app_assoc. repeat f_equal. lia.
    + intros p Hp. apply Hok. lia.
    + intros p Hp. apply Hne. lia.
    + by replace (S first + count) with (first + S count) by lia.
    + intros p d Hp. apply Hwf. lia.
Qed.

Lemma fetches_app (xs ys : list event) :
  fetches (xs ++ ys) = fetches xs ++ fetches ys.
Proof. apply omap_app. Qed.

Lemma yields_app (xs ys : list event) :
  yields (xs ++ ys) = yields xs ++ yields ys.
Proof. apply omap_app. Qed.

Lemma fetches_Yield (values : list (json * json * json_object)) :
  fetches (map Yield values) = [].
Proof. by induction values. Qed.

Lemma yields_Yield (values : list (json * json * json_object)) :
  yields (map Yield values) = values.
Proof. induction values as [|v values IH]; [done|]. cbn. by f_equal. Qed.

Lemma fetches_pages (f : nat → list (json * json * json_object))
    (pages : list nat) :
  fetches (flat_map (λ p, Fetch p :: map Yield (f p)) pages) = pages.
Proof.
  induction pages as [|p pages IH]; [done|].
  cbn [flat_map]. rewrite fetches_app. cbn.
  fold (fetches (map Yield (f p))). by rewrite fetches_Yield, IH.
Qed.

Lemma yields_pages (f : nat → list (json * json * json_object))
    (pages : list nat) :
  yields (flat_map (λ p, Fetch p :: map Yield (f p)) pages) = flat_map f pages.
Proof.
  induction pages as [|p pages IH]; [done|].
  cbn [flat_map]. rewrite yields_app. cbn.
  fold (yields (map Yield (f p))). by rewrite yields_Yield, IH.
Qed.

Lemma summary_of_record (d : json_object) (v : json * json * json_object) :
  summary_of d = Ok v → v.2 = d.
Proof. unfold summary_of. intros H. inv_ok. by subst. Qed.

(** C1. When pages 1 to [k] have records and page [k + 1] is the first
    without, the generator, given enough resumptions, completes; it has
    yielded the records of pages 1 to [k] in page order and in the order
    within each page, each as [(id, name, record)], and it has requested
    pages 1, 2, ..., [k + 1], each once and no other. *)
Theorem report_summaries_walk (k fuel : nat) :
  (∀ p, 1 ≤ p ≤ S k → _raise_for_status (fetch p) = Ok tt) →
  (∀ p, 1 ≤ p ≤ k → reports_of (fetch p) ≠ []) →
  reports_of (fetch (S k)) = [] →
  (∀ p d, 1 ≤ p ≤ k → d ∈ reports_of (fetch p) →
          is_Some (d !! "id") ∧ is_Some (d !! "name")) →
  length (records_of_pages fetch 1 k) < fuel →
  ∃ events,
    consume fetch fuel _report_summaries_generator = (events, Some Completed) ∧
    map snd (yields events) = records_of_pages fetch 1 k ∧
    Forall2 (λ d v, summary_of d = Ok v)
            (records_of_pages fetch 1 k) (yields events) ∧
    fetches events = seq 1 (S k) ∧
    length (fetches events) = S k.
Proof.
  intros Hok Hne Hempty Hwf Hfuel.
  eexists. split.
  { replace fuel
      with (length (records_of_pages fetch 1 k)
            + S (fuel - S (length (records_of_pages fetch 1 k)))) by lia.
    unfold _report_summaries_generator. apply consume_walk.
    - intros p Hp. apply Hok. lia.
    - intros p Hp. apply Hne. lia.
    - done.
    - intros p d Hp. apply Hwf. lia. }
  rewrite fetches_app, yields_app, fetches_pages, yields_pages. cbn.
  rewrite app_nil_r.
  assert (Hall : Forall2 (λ d v, summary_of d = Ok v)
            (records_of_pages fetch 1 k)
            (flat_map (λ p, summaries (reports_of (fetch p))) (seq 1 k))).
  { unfold records_of_pages.
    assert (Hin : ∀ p, p ∈ seq 1 k → 1 ≤ p ≤ k).
    { intros p Hp%elem_of_seq. lia. }
    induction (seq 1 k) as [|p pages IH]; [constructor|].
    cbn. apply Forall2_app.
    - apply summaries_Forall2. intros d. apply Hwf, Hin, elem_of_cons. by left.
    - apply IH. intros q Hq. apply Hin, elem_of_cons. by right. }
  split; [|split; [done|split]].
  - clear Hfuel. induction Hall as [|d v ds vs Hd _ IH]; [done|].
    cbn. by rewrite IH, (summary_of_record _ _ Hd).
  - exact (eq_sym (seq_S k 1)).
  - by rewrite length_app, length_seq, Nat.add_comm.
Qed.

End walk.

Section import.

Variable post : string → json_object → response unit.

Lemma uri_type_of_Ok (report_type : json) (uri_type : string) :
  uri_type_of report_type = Ok uri_type ↔
  (report_type, uri_type) ∈ supported_report_types.
Proof.
  unfold uri_type_of, supported_report_types.
  rewrite !elem_of_cons, elem_of_nil. split.
  - intros Hu. repeat case_decide; inv_ok; subst; tauto.
  - intros [Hu|[Hu|[Hu|[]]]]; simplify_eq; by repeat case_decide.
Qed.

Lemma uri_type_of_Raise (report_type : json) (e : exn) :
  uri_type_of report_type = Raise e ↔
  e = UnrecognizedReportType report_type ∧
  report_type ∉ supported_report_types.*1.
Proof.
  unfold uri_type_of, supported_report_types. cbn.
  rewrite !not_elem_of_cons.
  repeat case_decide; subst; split; try done.
  - intros (_ & ? & _). done.
  - intros (_ & _ & ? & _). done.
  - intros (_ & _ & _ & ? & _). done.
  - intros [= <-]. repeat split; try done. apply not_elem_of_nil.
  - by intros [-> _].
Qed.

Lemma import_loop_app (xs ys : list json_object)
    (posted : list (string * json_object)) :
  import_loop post (xs ++ ys) posted =
    match (import_loop post xs posted).2 with
    | Ok _ => import_loop post ys (import_loop post xs posted).1
    | Raise e => import_loop post xs posted
    end.
Proof.
  revert posted. induction xs as [|d xs IH]; intros posted; [done|].
  cbn [app import_loop].
  destruct (getitem "report_type" d ≫= uri_type_of) as [u|e]; [|done].
  destruct (_raise_for_status (post u d)) as [[]|e]; [apply IH|done].
Qed.

Lemma import_loop_grows (files : list json_object)
    (posted : list (string * json_object)) :
  ∃ more, (import_loop post files posted).1 = posted ++ more.
Proof.
  revert posted. induction files as [|d files IH]; intros posted; cbn.
  - exists []. by rewrite app_nil_r.
  - destruct (getitem "report_type" d ≫= uri_type_of) as [u|e];
      [|exists []; by rewrite app_nil_r].
    destruct (_raise_for_status (post u d)) as [[]|e].
    + destruct (IH (posted ++ [(u, d)])) as [more ->].
      exists ((u, d) :: more). by rewrite <- app_assoc.
    + by exists [(u, d)].
Qed.

Lemma import_loop_unrecognized (files : list json_object)
    (posted : list (string * json_object)) (report_type : json) :
  (import_loop post files posted).2 = Raise (UnrecognizedReportType report_type) →
  report_type ∉ supported_report_types.*1.
Proof.
  revert posted. induction files as [|d files IH]; intros posted; cbn; [done|].
  destruct (getitem "report_type" d ≫= uri_type_of) as [u|e] eqn:Hu.
  - destruct (_raise_for_status (post u d)) as [[]|e] eqn:Hst; [apply IH|].
    cbn. unfold _raise_for_status in Hst. case_bool_decide; by simplify_eq.
  - cbn. intros [= ->]. unfold getitem in Hu.
    destruct (d !! "report_type") as [t|]; cbn in Hu; [|done].
    by apply uri_type_of_Raise in Hu as [[= ->] ?].
Qed.

(** C9 (amended). A definition that [import_definitions] gets to, the
    files before it having gone through, makes the import raise the
    unrecognized report type error, with nothing sent for it, exactly when
    its [report_type] is not [license], [vulnerability] or
    [operational_risk]; for one of those three the definition is posted to
    [licenses], [vulnerabilities] or [operationalRisks] respectively, the
    import does not raise that error for this report type, and when the
    server accepts the definition the import goes on with the files after
    it. Another error, such as the status of a refused request, remains
    possible for a supported report type. *)
Theorem import_unsupported_kind_iff (earlier later : list json_object)
    (definition : json_object) (report_type : json) :
  (import_definitions post true earlier).2 = Ok tt →
  definition !! "report_type" = Some report_type →
  let before := (import_definitions post true earlier).1 in
  let run := import_definitions post true (earlier ++ definition :: later) in
  (run = (before, Raise (UnrecognizedReportType report_type)) ↔
   report_type ∉ supported_report_types.*1) ∧
  (∀ uri_type,
     (report_type, uri_type) ∈ supported_report_types →
     (∃ more, run.1 = before ++ (uri_type, definition) :: more) ∧
     run.2 ≠ Raise (UnrecognizedReportType report_type) ∧
     (¬ (400 ≤ status_code (post uri_type definition) < 600) →
      run = import_loop post later (before ++ [(uri_type, definition)]))).
Proof.
  unfold import_definitions. cbn [negb]. intros Hearlier Htype. cbn zeta.
  rewrite import_loop_app, Hearlier.
  set (before := (import_loop post earlier []).1).
  assert (Hstep : import_loop post (definition :: later) before =
    match uri_type_of report_type with
    | Raise e => (before, Raise e)
    | Ok uri_type =>
        match _raise_for_status (post uri_type definition) with
        | Raise e => (before ++ [(uri_type, definition)], Raise e)
        | Ok _ => import_loop post later (before ++ [(uri_type, definition)])
        end
    end).
  { cbn [import_loop]. unfold getitem. by rewrite Htype. }
  rewrite Hstep. clear Hstep.
  destruct (uri_type_of report_type) as [u|e] eqn:Hu.
  - apply uri_type_of_Ok in Hu as Hsup.
    assert (Hin : report_type ∈ supported_report_types.*1).
    { apply list_elem_of_fmap. by exists (report_type, u). }
    assert (Hmore : ∃ more,
      (match _raise_for_status (post u definition) with
       | Raise e => (before ++ [(u, definition)], Raise e)
       | Ok _ => import_loop post later (before ++ [(u, definition)])
       end).1 = before ++ (u, definition) :: more).
    { destruct (_raise_for_status (post u definition)) as [[]|e].
      - destruct (import_loop_grows later (before ++ [(u, definition)]))
          as [more ->].
        exists more. by rewrite <- app_assoc.
      - by exists []. }
    assert (Hnot :
      (match _raise_for_status (post u definition) with
       | Raise e => (before ++ [(u, definition)], Raise e)
       | Ok _ => import_loop post later (before ++ [(u, definition)])
       end).2 ≠ Raise (UnrecognizedReportType report_type)).
    { destruct (_raise_for_status (post u definition)) as [[]|e] eqn:Hst.
      - intros Hr. by apply import_loop_unrecognized in Hr.
      - cbn. unfold _raise_for_status in Hst.
        case_bool_decide; by simplify_eq. }
    split.
    + split; [|done]. intros Hrun. exfalso. apply Hnot. by rewrite Hrun.
    + intros u' Hsup'. apply uri_type_of_Ok in Hsup'.
      rewrite Hu in Hsup'. simplify_eq. do 2 (split; [done|]).
      intros Haccepted. unfold _raise_for_status.
      by rewrite bool_decide_eq_false_2.
  - apply uri_type_of_Raise in Hu as [-> Hnot]. split; [done|].
    intros u Hsup. exfalso. apply Hnot.
    apply list_elem_of_fmap. by exists (report_type, u).
Qed.

End import.

End ReportsFacts.

(** ** The two scripts on the example inputs *)
Module ExampleFacts.
Import SitesDiff Reports Examples SitesDiffFacts ReportsFacts.

Lemma elements_perm (X : gset string) : elements X ≡ₚ elements X.
Proof. reflexivity. Defined.

Example diff_12 : diff elements site_1 site_2 false = Ok report_12.
Proof. vm_compute. reflexivity. Qed.

Example diff_12_excluded :
  diff elements site_1 site_2 true = Ok report_12_excluded.
Proof. vm_compute. reflexivity. Qed.

Lemma repositories_partition_witness :
  diff elements site_1 site_2 false = Ok report_12 ∧
  ∃ r1 r2 : gmap string (gmap string string),
    _repository_keys site_1 = Ok r1 ∧ _repository_keys site_2 = Ok r2 ∧
    NoDup ["lib-c"] ∧ NoDup ["lib-b"] ∧
    (list_to_set ["lib-c"] : gset string) = dom r2 ∖ dom r1 ∧
    (list_to_set ["lib-b"] : gset string) = dom r1 ∖ dom r2 ∧
    (list_to_set ["lib-c"] : gset string) ## list_to_set ["lib-b"] ∧
    (list_to_set ["lib-c"] : gset string) ## exists_in_both r1 r2 ∧
    (list_to_set ["lib-b"] : gset string) ## exists_in_both r1 r2 ∧
    (list_to_set ["lib-c"] : gset string) ∪ list_to_set ["lib-b"]
      ∪ exists_in_both r1 r2 = dom r1 ∪ dom r2.
Proof.
  split; [vm_compute; reflexivity|].
  apply (repositories_partition elements elements_perm site_1 site_2 false
           report_12).
  vm_compute; reflexivity.
Defined.

Lemma rclass_mismatch_exact_witness :
  diff elements site_1 site_2 false = Ok report_12 ∧
  ∃ r1 r2 : gmap string (gmap string string),
    _repository_keys site_1 = Ok r1 ∧ _repository_keys site_2 = Ok r2 ∧
    (∀ id, id ∈ ["lib-m"] → id ∈ exists_in_both r1 r2) ∧
    (∀ id, id ∈ ["lib-m"] ↔
           ∃ rclass_1 rclass_2,
             rclass r1 id = Some rclass_1 ∧ rclass r2 id = Some rclass_2 ∧
             rclass_1 ≠ rclass_2) ∧
    (∀ id tag,
       rclass r1 id = Some tag → rclass r2 id = Some tag →
       (id ∉ ["lib-c"]) ∧ (id ∉ ["lib-b"]) ∧ (id ∉ ["lib-m"])).
Proof.
  split; [vm_compute; reflexivity|].
  apply (rclass_mismatch_exact elements elements_perm site_1 site_2 false
           report_12).
  vm_compute; reflexivity.
Defined.

Lemma diffs_iff_either_hash_differs_witness :
  diff elements site_1 site_2 false = Ok report_12 ∧
  ("/x.jar" ∈ reported artifacts_12 "lib-a" "diffs" ↔
   file "/x.jar" "h1" "h2" !! "sha1" ≠ file "/x.jar" "h1" "h3" !! "sha1" ∨
   file "/x.jar" "h1" "h2" !! "sha2" ≠ file "/x.jar" "h1" "h3" !! "sha2").
Proof.
  split; [vm_compute; reflexivity|].
  apply (diffs_iff_either_hash_differs elements elements_perm site_1 site_2
           report_12 artifacts_12 repositories_1 repositories_2
           "lib-a" "LOCAL" items_a_1 items_a_2 "/x.jar").
  - vm_compute; reflexivity.
  - reflexivity.
  - vm_compute; reflexivity.
  - vm_compute; reflexivity.
  - vm_compute; reflexivity.
  - vm_compute; reflexivity.
  - intros [H|H]; discriminate H.
  - vm_compute; reflexivity.
  - vm_compute; reflexivity.
  - vm_compute; reflexivity.
  - vm_compute; reflexivity.
Defined.

Lemma aggregating_never_in_artifacts_witness :
  diff elements site_1 site_2 false = Ok report_12 ∧
  "lib-v" ∈ exists_in_both repositories_1 repositories_2 ∧
  rclass repositories_1 "lib-v" = Some "VIRTUAL" ∧
  _list_items site_1 "lib-v" ≠ _list_items site_2 "lib-v" ∧
  artifacts_12 !! "lib-v" = None.
Proof.
  split; [vm_compute; reflexivity|].
  split; [vm_compute; reflexivity|].
  split; [vm_compute; reflexivity|].
  split; [vm_compute; intros H; discriminate H|].
  apply (aggregating_never_in_artifacts elements elements_perm site_1 site_2
           false report_12 repositories_1 repositories_2 "lib-v" "VIRTUAL").
  - vm_compute; reflexivity.
  - vm_compute; reflexivity.
  - vm_compute; reflexivity.
  - vm_compute; reflexivity.
  - vm_compute; reflexivity.
  - by left.
  - reflexivity.
Defined.

Lemma artifacts_key_only_if_nonempty_witness :
  diff elements site_1 site_2 false = Ok report_12 ∧
  (∀ key record,
     artifacts_12 !! key = Some record →
     ∃ items_in_1 items_in_2,
       _list_items site_1 key = Ok items_in_1 ∧
       _list_items site_2 key = Ok items_in_2 ∧
       (dom items_in_2 ∖ dom items_in_1 ≠ ∅ ∨
        dom items_in_1 ∖ dom items_in_2 ≠ ∅ ∨
        ∃ uri, differs_at items_in_1 items_in_2 uri)) ∧
  (∀ key items_in_1 items_in_2,
     _list_items site_1 key = Ok items_in_1 →
     _list_items site_2 key = Ok items_in_2 →
     dom items_in_1 = dom items_in_2 →
     (∀ uri, ¬ differs_at items_in_1 items_in_2 uri) →
     artifacts_12 !! key = None).
Proof.
  split; [vm_compute; reflexivity|].
  apply (artifacts_key_only_if_nonempty elements elements_perm site_1 site_2
           false report_12 artifacts_12).
  - vm_compute; reflexivity.
  - reflexivity.
Defined.

Lemma diffs_disjoint_from_missing_witness :
  diff elements site_1 site_2 false = Ok report_12 ∧
  ∀ key uri,
    uri ∈ reported artifacts_12 key "diffs" →
    (uri ∉ reported artifacts_12 key "missing_in_1") ∧
    (uri ∉ reported artifacts_12 key "missing_in_2").
Proof.
  split; [vm_compute; reflexivity|].
  apply (diffs_disjoint_from_missing elements elements_perm site_1 site_2
           false report_12 artifacts_12).
  - vm_compute; reflexivity.
  - reflexivity.
Defined.

Lemma exclude_artifacts_omits_section_witness :
  diff elements site_1 site_2 true = Ok report_12_excluded ∧
  artifacts report_12_excluded = None ∧
  (∀ rep', diff elements site_1 site_2 false = Ok rep' →
           repositories rep' = repositories report_12_excluded).
Proof.
  split; [vm_compute; reflexivity|].
  destruct (exclude_artifacts_omits_section elements elements_perm
              site_1 site_2 report_12_excluded) as (Hnone & _ & Hsame).
  - vm_compute; reflexivity.
  - split; [exact Hnone | exact Hsame].
Defined.

Lemma record_fields_present_iff_nonempty_witness :
  diff elements site_1 site_2 false = Ok report_12 ∧
  artifacts_12 !! "lib-m" = Some {[ "missing_in_2" := ["/m.jar"] ]} ∧
  ∃ items_in_1 items_in_2 : gmap string (gmap string string),
    _list_items site_1 "lib-m" = Ok items_in_1 ∧
    _list_items site_2 "lib-m" = Ok items_in_2 ∧
    (is_Some (({[ "missing_in_2" := ["/m.jar"] ]} : gmap string (list string))
                !! "missing_in_1") ↔
     dom items_in_2 ∖ dom items_in_1 ≠ ∅) ∧
    (is_Some (({[ "missing_in_2" := ["/m.jar"] ]} : gmap string (list string))
                !! "missing_in_2") ↔
     dom items_in_1 ∖ dom items_in_2 ≠ ∅) ∧
    (is_Some (({[ "missing_in_2" := ["/m.jar"] ]} : gmap string (list string))
                !! "diffs") ↔
     ∃ uri, differs_at items_in_1 items_in_2 uri) ∧
    (∀ field paths,
       ({[ "missing_in_2" := ["/m.jar"] ]} : gmap string (list string))
         !! field = Some paths →
       paths ≠ [] ∧ field ∈ ["missing_in_1"; "missing_in_2"; "diffs"]).
Proof.
  split; [vm_compute; reflexivity|].
  split; [vm_compute; reflexivity|].
  apply (record_fields_present_iff_nonempty elements elements_perm
           site_1 site_2 false report_12 artifacts_12 "lib-m").
  - vm_compute; reflexivity.
  - reflexivity.
  - vm_compute; reflexivity.
Defined.

Lemma report_summaries_walk_witness :
  ∃ events,
    consume three_pages 4 (_report_summaries_generator) = (events, Some Completed) ∧
    map snd (yields events) = [r1; r2; r3] ∧
    Forall2 (λ d v, summary_of d = Ok v) [r1; r2; r3] (yields events) ∧
    fetches events = [1; 2; 3] ∧
    length (fetches events) = 3.
Proof.
  apply (report_summaries_walk three_pages 2 4).
  - intros p _. reflexivity.
  - intros p Hp. destruct p as [|[|[|p]]]; [lia|discriminate|discriminate|lia].
  - reflexivity.
  - intros p d Hp Hd.
    destruct p as [|[|[|p]]]; [lia| | |lia]; cbn in Hd;
      repeat (apply elem_of_cons in Hd as [->|Hd]);
      try (by apply elem_of_nil in Hd); split; vm_compute; eauto.
  - cbn. lia.
Defined.

Lemma import_unsupported_kind_iff_witness :
  import_definitions accept_all true [r1; sbom; r2]
  = ([("licenses", r1)], Raise (UnrecognizedReportType (JStr "sbom"))).
Proof.
  apply (proj1 (import_unsupported_kind_iff accept_all [r1] [r2] sbom
                  (JStr "sbom") eq_refl eq_refl)).
  vm_compute. intros H.
  repeat (apply elem_of_cons in H as [H|H]; [discriminate H|]).
  by apply elem_of_nil in H.
Defined.

(** C9 (counterexample). A definition of a supported report type that the
    server refuses makes the import raise an error, the status, although
    its report type is in the enumeration: raising an error is not
    equivalent to the report type being outside of it. *)
Lemma import_raises_iff_unsupported_counterexample :
  r1 !! "report_type" = Some (JStr "license") ∧
  ¬ ((∃ e, (import_definitions refuse_all true [r1]).2 = Raise e) ↔
     JStr "license" ∉ supported_report_types.*1).
Proof.
  split; [reflexivity|]. intros [Hraises _].
  apply Hraises; [by exists (HTTPError 403)|].
  apply list_elem_of_fmap. exists (JStr "license", "licenses").
  split; [reflexivity|]. apply elem_of_cons. by left.
Qed.

(** The two cases the specification spells out for the generator: the
    events of the walk over [[r1, r2]], [[r3]], [[]], and over a source
    whose first page is empty. *)
Example three_pages_events :
  consume three_pages 4 _report_summaries_generator
  = ([Fetch 1; Yield (JInt 1, JStr "alpha", r1);
      Yield (JInt 2, JStr "beta", r2);
      Fetch 2; Yield (JInt 3, JStr "gamma", r3);
      Fetch 3],
     Some Completed).
Proof. vm_compute. reflexivity. Qed.

Example no_pages_events :
  consume no_pages 1 _report_summaries_generator
  = ([Fetch 1], Some Completed).
Proof. vm_compute. reflexivity. Qed.

(** Fewer resumptions than records plus one leave the iteration open. *)
Example three_pages_short :
  (consume three_pages 3 _report_summaries_generator).2 = None.
Proof. vm_compute. reflexivity. Qed.

(** The tag of side 1 alone decides whether a repository is compared:
    [lib-m], remote on side 2 only, has a record. *)
Example remote_on_side_2_only_is_compared :
  rclass repositories_1 "lib-m" = Some "LOCAL" ∧
  rclass repositories_2 "lib-m" = Some "REMOTE" ∧
  artifacts_12 !! "lib-m" = Some {[ "missing_in_2" := ["/m.jar"] ]}.
Proof. repeat split; vm_compute; reflexivity. Qed.

(** A supported report type does not keep the import from failing for
    another reason. *)
Example refused_import :
  import_definitions refuse_all true [r1]
  = ([("licenses", r1)], Raise (HTTPError 403)).
Proof. vm_compute. reflexivity. Qed.

Example missing_directory :
  import_definitions accept_all false [r1] = ([], Raise NotADirectory).
Proof. reflexivity. Qed.

End ExampleFacts.

(** ** reports.py: more on the generator *)
Module GeneratorFacts.
Import Reports ReportsFacts.

Section walk.

Variable fetch : page_source.

(** [count] pages with records, then whatever the walk does from the page
    after them. *)
Lemma consume_pages (count first fuel : nat) :
  (∀ p, first ≤ p < first + count → _raise_for_status (fetch p) = Ok tt) →
  (∀ p, first ≤ p < first + count → reports_of (fetch p) ≠ []) →
  (∀ p d, first ≤ p < first + count → d ∈ reports_of (fetch p) →
          is_Some (d !! "id") ∧ is_Some (d !! "name")) →
  consume fetch (length (records_of_pages fetch first count) + fuel)
          (AtRequest first)
  = (flat_map (λ p, Fetch p :: map Yield (summaries (reports_of (fetch p))))
              (seq first count)
       ++ (consume fetch fuel (AtRequest (first + count))).1,
     (consume fetch fuel (AtRequest (first + count))).2).
Proof.
  revert first. induction count as [|count IH]; intros first Hok Hne Hwf.
  - cbn. rewrite Nat.add_0_r. by destruct (consume _ _ _).
  - unfold records_of_pages. cbn [seq map concat flat_map].
    rewrite length_app, <- Nat.add_assoc.
    assert (Hvals := summaries_Forall2 (reports_of (fetch first))
                       (λ d, Hwf first d ltac:(lia))).
    rewrite (Forall2_length _ _ _ Hvals).
    rewrite (consume_page _ _ _ _ (Hok first ltac:(lia)) (Hne first ltac:(lia))
               Hvals).
    replace (first + 1) with (S first) by lia.
    fold (records_of_pages fetch (S first) count).
    rewrite (IH (S first)).
    + cbn. rewrite <- app_assoc.
      by replace (S (first + count)) with (first + S count) by lia.
    + intros p Hp. apply Hok. lia.
    + intros p Hp. apply Hne. lia.
    + intros p d Hp. apply Hwf. lia.
Qed.

Lemma records_of_values (records : list json_object)
    (values : list (json * json * json_object)) :
  Forall2 (λ d v, summary_of d = Ok v) records values →
  map snd values = records.
Proof.
  induction 1 as [|d v ds vs Hd _ IH]; [done|].
  cbn. by rewrite IH, (summary_of_record _ _ Hd).
Qed.

Lemma records_of_summaries_pages (first count : nat) :
  (∀ p d, first ≤ p < first + count → d ∈ reports_of (fetch p) →
          is_Some (d !! "id") ∧ is_Some (d !! "name")) →
  map snd (flat_map (λ p, summaries (reports_of (fetch p))) (seq first count))
  = records_of_pages fetch first count.
Proof.
  intros Hwf. unfold records_of_pages.
  assert (Hin : ∀ p, p ∈ seq first count → first ≤ p < first + count).
  { intros p Hp%elem_of_seq. lia. }
  induction (seq first count) as [|p pages IH]; [done|].
  cbn. rewrite map_app. f_equal.
  - assert (Hp : ∀ d, d ∈ reports_of (fetch p) →
                      is_Some (d !! "id") ∧ is_Some (d !! "name")).
    { intros d. apply Hwf, Hin, elem_of_cons. by left. }
    apply summaries_Forall2 in Hp.
    induction Hp as [|d v ds vs Hd _ IHp]; [done|].
    cbn. by rewrite IHp, (summary_of_record _ _ Hd).
  - apply IH. intros q Hq. apply Hin, elem_of_cons. by right.
Qed.

(** Line 44: a request that fails costs one request and raises. *)
Lemma consume_failed_page (page_num fuel : nat) :
  400 ≤ status_code (fetch page_num) < 600 →
  consume fetch (S fuel) (AtRequest page_num)
  = ([Fetch page_num], Some (Failed (HTTPError (status_code (fetch page_num))))).
Proof.
  intros Hrange. cbn [consume next]. unfold request_page, _raise_for_status.
  by rewrite bool_decide_eq_true_2.
Qed.

(** X1. The walk that ends in a failed request: the records of the pages
    before it have been yielded, and the status is raised. *)
Theorem walk_aborts_on_http_error (k fuel c : nat) :
  (∀ p, 1 ≤ p ≤ k → _raise_for_status (fetch p) = Ok tt) →
  (∀ p, 1 ≤ p ≤ k → reports_of (fetch p) ≠ []) →
  (∀ p d, 1 ≤ p ≤ k → d ∈ reports_of (fetch p) →
          is_Some (d !! "id") ∧ is_Some (d !! "name")) →
  status_code (fetch (S k)) = c →
  400 ≤ c < 600 →
  length (records_of_pages fetch 1 k) < fuel →
  ∃ events,
    consume fetch fuel _report_summaries_generator
      = (events, Some (Failed (HTTPError c))) ∧
    map snd (yields events) = records_of_pages fetch 1 k ∧
    fetches events = seq 1 (S k).
Proof.
  intros Hok Hne Hwf Hc Hrange Hfuel.
  eexists. split.
  { replace fuel
      with (length (records_of_pages fetch 1 k)
            + S (fuel - S (length (records_of_pages fetch 1 k)))) by lia.
    unfold _report_summaries_generator. rewrite consume_pages.
    - change (1 + k) with (S k). rewrite consume_failed_page, Hc by lia.
      reflexivity.
    - intros p Hp. apply Hok. lia.
    - intros p Hp. apply Hne. lia.
    - intros p d Hp. apply Hwf. lia. }
  rewrite fetches_app, yields_app, fetches_pages, yields_pages. cbn.
  rewrite app_nil_r. split.
  - apply records_of_summaries_pages. intros p d Hp. apply Hwf. lia.
  - exact (eq_sym (seq_S k 1)).
Qed.

(** X2. The walk that meets a record without [id] or without [name]: the
    records before it, of the earlier pages and of its own page, have been
    yielded, and the [KeyError] of the first member that is missing is
    raised. *)
Theorem walk_aborts_on_missing_member (k fuel : nat)
    (before after : list json_object) (d : json_object) :
  (∀ p, 1 ≤ p ≤ S k → _raise_for_status (fetch p) = Ok tt) →
  (∀ p, 1 ≤ p ≤ k → reports_of (fetch p) ≠ []) →
  (∀ p d, 1 ≤ p ≤ k → d ∈ reports_of (fetch p) →
          is_Some (d !! "id") ∧ is_Some (d !! "name")) →
  reports_of (fetch (S k)) = before ++ d :: after →
  (∀ d, d ∈ before → is_Some (d !! "id") ∧ is_Some (d !! "name")) →
  d !! "id" = None ∨ d !! "name" = None →
  length (records_of_pages fetch 1 k) + length before < fuel →
  ∃ events,
    consume fetch fuel _report_summaries_generator
      = (events,
         Some (Failed (KeyError (if d !! "id" is Some _ then "name" else "id")))) ∧
    map snd (yields events) = records_of_pages fetch 1 k ++ before ∧
    fetches events = seq 1 (S k).
Proof.
  intros Hok Hne Hwf Hpage Hbefore Hmissing Hfuel.
  assert (Hd : summary_of d
               = Raise (KeyError (if d !! "id" is Some _ then "name" else "id"))).
  { unfold summary_of, getitem.
    destruct (d !! "id") as [i|]; cbn; [|done].
    destruct Hmissing as [? | ->]; done. }
  assert (Hvals := summaries_Forall2 before Hbefore).
  assert (Hlast : ∀ n,
    consume fetch (length before + S n) (AtRequest (S k))
    = (Fetch (S k) :: map Yield (summaries before),
       Some (Failed (KeyError (if d !! "id" is Some _ then "name" else "id"))))).
  { intros n. clear Hfuel.
    assert (Hrest : ∀ rest vals m,
      Forall2 (λ d v, summary_of d = Ok v) rest vals →
      consume fetch (length rest + S m) (InReports (S k) (rest ++ d :: after))
      = (map Yield vals,
         Some (Failed (KeyError (if d !! "id" is Some _ then "name" else "id"))))).
    { intros rest vals m Hf. induction Hf as [|x v rest vals Hx _ IH].
      - cbn [length Nat.add app consume next]. unfold yield_definition.
        by rewrite Hd.
      - cbn [length Nat.add app consume next]. unfold yield_definition.
        rewrite Hx. cbn [Nat.add] in IH. by rewrite IH. }
    destruct Hvals as [|x v rest vals Hx Hf].
    - cbn [length Nat.add consume next]. unfold request_page.
      rewrite (Hok (S k)) by lia. rewrite Hpage. cbn [app].
      unfold yield_definition. by rewrite Hd.
    - cbn [length Nat.add consume next]. unfold request_page.
      rewrite (Hok (S k)) by lia. rewrite Hpage. cbn [app].
      unfold yield_definition. rewrite Hx.
      by rewrite (Hrest rest vals n Hf). }
  eexists. split.
  { replace fuel
      with (length (records_of_pages fetch 1 k)
            + (length before
               + S (fuel - S (length (records_of_pages fetch 1 k) + length before))))
      by lia.
    unfold _report_summaries_generator. rewrite consume_pages.
    - change (1 + k) with (S k). rewrite Hlast. reflexivity.
    - intros p Hp. apply Hok. lia.
    - intros p Hp. apply Hne. lia.
    - intros p x Hp. apply Hwf. lia. }
  rewrite fetches_app, yields_app, fetches_pages, yields_pages. cbn.
  fold (fetches (map Yield (summaries before))).
  fold (yields (map Yield (summaries before))).
  rewrite fetches_Yield, yields_Yield, map_app. split.
  - f_equal.
    + apply records_of_summaries_pages. intros p x Hp. apply Hwf. lia.
    + by apply records_of_values.
  - exact (eq_sym (seq_S k 1)).
Qed.

(** One resumption sends at most one request. *)
Lemma next_fetched (g : generator) :
  (next fetch g).1 = match g with
                     | AtRequest p => [p]
                     | InReports p [] => [p + 1]
                     | _ => []
                     end.
Proof. by destruct g as [p|p [|d rest]|]. Qed.



(** X4. Over a source none of whose pages is empty the walk never completes:
    every resumption yields a record, however many there are. *)
Theorem walk_without_empty_page_goes_on (fuel : nat) :
  (∀ p, 1 ≤ p → _raise_for_status (fetch p) = Ok tt) →
  (∀ p, 1 ≤ p → reports_of (fetch p) ≠ []) →
  (∀ p d, 1 ≤ p → d ∈ reports_of (fetch p) →
          is_Some (d !! "id") ∧ is_Some (d !! "name")) →
  ∃ events,
    consume fetch fuel _report_summaries_generator = (events, None) ∧
    length (yields events) = fuel.
Proof.
  intros Hok Hne Hwf.
  assert (Hall : ∀ fuel g,
    match g with
    | AtRequest p => 1 ≤ p
    | InReports p rest =>
        1 ≤ p ∧ ∀ d, d ∈ rest → is_Some (d !! "id") ∧ is_Some (d !! "name")
    | Exhausted => False
    end →
    ∃ events, consume fetch fuel g = (events, None) ∧
              length (yields events) = fuel).
  { clear fuel. induction fuel as [|fuel IH]; intros g Hg; [by exists []|].
    assert (Hyield : ∀ p d rest fetched,
      1 ≤ p →
      (∀ x, x ∈ d :: rest → is_Some (x !! "id") ∧ is_Some (x !! "name")) →
      ∃ events,
        match yield_definition p d rest with
        | Yielded value g' =>
            let '(events, e) := consume fetch fuel g' in
            (map Fetch fetched ++ Yield value :: events, e)
        | StopIteration => (map Fetch fetched, Some Completed)
        | Raised e => (map Fetch fetched, Some (Failed e))
        end = (events, None) ∧ length (yields events) = S fuel).
    { intros p d rest fetched Hp Hrec.
      destruct (Hrec d) as [[i Hi] [n Hn]]; [apply elem_of_cons; by left|].
      unfold yield_definition, summary_of, getitem. rewrite Hi, Hn. cbn.
      destruct (IH (InReports p rest)) as (events & -> & Hlen).
      { split; [done|]. intros x Hx. apply Hrec, elem_of_cons. by right. }
      eexists. split; [done|]. rewrite yields_app. cbn.
      fold (yields events).
      assert (Hyf : yields (map Fetch fetched) = []) by by induction fetched.
      rewrite Hyf. cbn. by rewrite Hlen. }
    destruct g as [p|p [|d rest]|]; [| | |done].
    - cbn [consume next]. unfold request_page. rewrite Hok by done.
      destruct (reports_of (fetch p)) as [|d rest] eqn:Hpage; [by apply Hne in Hpage|].
      apply Hyield; [done|]. intros x Hx. apply (Hwf p); [done|]. by rewrite Hpage.
    - destruct Hg as [Hp _]. cbn [consume next]. unfold request_page.
      rewrite Hok by lia.
      destruct (reports_of (fetch (p + 1))) as [|d rest] eqn:Hpage;
        [apply Hne in Hpage; [done|lia]|].
      apply Hyield; [lia|]. intros x Hx. apply (Hwf (p + 1)); [lia|].
      by rewrite Hpage.
    - destruct Hg as [Hp Hrec]. cbn [consume next]. by apply Hyield. }
  apply Hall. unfold _report_summaries_generator. lia.
Qed.


End walk.

End GeneratorFacts.

(** ** reports.py: more on the import *)
Module ImportFacts.
Import Reports ReportsFacts.

Section import.

Variable post : string → json_object → response unit.

Lemma import_loop_posted (files : list json_object)
    (posted : list (string * json_object)) :
  ∃ more,
    (import_loop post files posted).1 = posted ++ more ∧
    more.*2 `prefix_of` files ∧
    Forall (λ p, ∃ t, p.2 !! "report_type" = Some t ∧
                      (t, p.1) ∈ supported_report_types) more ∧
    ((import_loop post files posted).2 = Ok tt →
     more.*2 = files ∧
     Forall (λ p, ¬ (400 ≤ status_code (post p.1 p.2) < 600)) more).
Proof.
  revert posted. induction files as [|d files IH]; intros posted.
  { exists []. cbn. rewrite app_nil_r. by repeat split. }
  cbn [import_loop].
  destruct (getitem "report_type" d ≫= uri_type_of) as [u|e] eqn:Hu.
  - assert (Hsup : ∃ t, d !! "report_type" = Some t ∧
                        (t, u) ∈ supported_report_types).
    { unfold getitem in Hu. destruct (d !! "report_type") as [t|]; [|done].
      exists t. split; [done|]. by apply uri_type_of_Ok. }
    destruct (_raise_for_status (post u d)) as [[]|e] eqn:Hst.
    + destruct (IH (posted ++ [(u, d)])) as (more & Hlog & Hpre & Hall & Hok).
      exists ((u, d) :: more). rewrite Hlog, <- app_assoc. cbn.
      split; [done|]. split; [by apply prefix_cons|].
      split; [by constructor|].
      intros Hr. destruct (Hok Hr) as [-> Hacc]. split; [done|].
      constructor; [|done]. cbn. unfold _raise_for_status in Hst.
      case_bool_decide; [done|]. done.
    + exists [(u, d)]. cbn. split; [done|].
      split; [apply prefix_cons, prefix_nil|].
      split; [by repeat constructor|done].
  - exists []. cbn. rewrite app_nil_r.
    split; [done|]. split; [apply prefix_nil|]. by split.
Qed.


(** X7. An import that ends without an exception has posted every file, once,
    in order, and the server has accepted each. *)
Theorem import_success_posts_all (is_dir : bool) (files : list json_object) :
  (import_definitions post is_dir files).2 = Ok tt →
  let posted := (import_definitions post is_dir files).1 in
  is_dir = true ∧
  posted.*2 = files ∧
  Forall (λ p, ¬ (400 ≤ status_code (post p.1 p.2) < 600)) posted.
Proof.
  unfold import_definitions. destruct is_dir; cbn [negb]; [|done].
  intros Hr. cbn zeta.
  destruct (import_loop_posted files []) as (more & Hlog & _ & _ & Hok).
  rewrite Hlog. destruct (Hok Hr) as [? ?]. by repeat split.
Qed.

(** X8. A definition without [report_type] that the import gets to raises
    [KeyError], and nothing is sent for it or after it. *)
Theorem import_missing_report_type (earlier later : list json_object)
    (definition : json_object) :
  (import_definitions post true earlier).2 = Ok tt →
  definition !! "report_type" = None →
  import_definitions post true (earlier ++ definition :: later)
  = ((import_definitions post true earlier).1, Raise (KeyError "report_type")).
Proof.
  unfold import_definitions. cbn [negb]. intros Hearlier Htype.
  rewrite import_loop_app, Hearlier. cbn [import_loop].
  unfold getitem. by rewrite Htype.
Qed.

(** X9. A definition of a supported report type that the server refuses is
    the last one sent: the import raises the status. *)
Theorem import_refused_definition (earlier later : list json_object)
    (definition : json_object) (report_type : json) (uri_type : string) :
  (import_definitions post true earlier).2 = Ok tt →
  definition !! "report_type" = Some report_type →
  (report_type, uri_type) ∈ supported_report_types →
  400 ≤ status_code (post uri_type definition) < 600 →
  import_definitions post true (earlier ++ definition :: later)
  = ((import_definitions post true earlier).1 ++ [(uri_type, definition)],
     Raise (HTTPError (status_code (post uri_type definition)))).
Proof.
  unfold import_definitions. cbn [negb]. intros Hearlier Htype Hsup Hst.
  rewrite import_loop_app, Hearlier. cbn [import_loop].
  unfold getitem. rewrite Htype. cbn.
  apply uri_type_of_Ok in Hsup. rewrite Hsup.
  unfold _raise_for_status. by rewrite bool_decide_eq_true_2.
Qed.

End import.

End ImportFacts.

(** ** reports.py: the two exports *)
Module ExportFacts.
Import Reports ReportsFacts Exports GeneratorFacts.

Lemma string_length_app (s a : string) :
  String.length (s +:+ a) = String.length s + String.length a.
Proof.
  induction s as [|c s IH]; [done|].
  change (S (String.length (s +:+ a)) = S (String.length s + String.length a)).
  by rewrite IH.
Qed.

(** Two names with suffixes of the same length are equal only when both
    their stems and their suffixes are. *)
Lemma string_app_cancel (s1 s2 a b : string) :
  String.length a = String.length b →
  s1 +:+ a = s2 +:+ b → s1 = s2 ∧ a = b.
Proof.
  intros Hlen. revert s2. induction s1 as [|c s1 IH]; intros [|c' s2] Heq.
  - done.
  - exfalso. change ("" +:+ a) with a in Heq. subst a.
    change (String.length (String c' s2 +:+ b))
      with (S (String.length (s2 +:+ b))) in Hlen.
    rewrite string_length_app in Hlen. lia.
  - exfalso. change ("" +:+ b) with b in Heq. subst b.
    change (String.length (String c s1 +:+ a))
      with (S (String.length (s1 +:+ a))) in Hlen.
    rewrite string_length_app in Hlen. lia.
  - change (String c (s1 +:+ a) = String c' (s2 +:+ b)) in Heq.
    injection Heq as -> Heq. destruct (IH s2 Heq) as [-> ->]. done.
Qed.

Lemma summary_output_path_inj (i j : json) :
  summary_output_path i = summary_output_path j → py_str i = py_str j.
Proof. intros H. by apply string_app_cancel in H as [? _]. Qed.

Lemma details_output_path_inj (i j : json) :
  details_output_path i = details_output_path j → py_str i = py_str j.
Proof. intros H. by apply string_app_cancel in H as [? _]. Qed.

Lemma summary_is_not_details (i j : json) :
  summary_output_path i ≠ details_output_path j.
Proof. intros H. by apply string_app_cancel in H as [_ ?]. Qed.

Section harvest.

Variable fetch : page_source.
Variable get_report : string → response json_object.
Variable get_export : string → string → string → response (list string).
Variable can_open : string → bool.

Lemma elem_of_records_of_pages (first count : nat) (d : json_object) :
  d ∈ records_of_pages fetch first count ↔
  ∃ p, first ≤ p < first + count ∧ d ∈ reports_of (fetch p).
Proof.
  unfold records_of_pages.
  assert (Hl : ∀ l : list nat,
    d ∈ concat (map (λ p, reports_of (fetch p)) l) ↔
    ∃ p, p ∈ l ∧ d ∈ reports_of (fetch p)).
  { induction l as [|q l IH]; cbn.
    - rewrite elem_of_nil. split; [done|]. intros (p & Hp & _).
      by apply elem_of_nil in Hp.
    - rewrite elem_of_app, IH. split.
      + intros [Hd|(p & Hp & Hd)].
        * exists q. split; [apply elem_of_cons; by left|done].
        * exists p. split; [apply elem_of_cons; by right|done].
      + intros (p & [->|Hp]%elem_of_cons & Hd); [by left|].
        right. by exists p. }
  rewrite Hl. split; intros (p & Hp & Hd); exists p; split; try done.
  - apply elem_of_seq in Hp. lia.
  - apply elem_of_seq. lia.
Qed.

Lemma summaries_pages (first count : nat) :
  flat_map (λ p, summaries (reports_of (fetch p))) (seq first count)
  = summaries (records_of_pages fetch first count).
Proof.
  unfold records_of_pages, summaries.
  induction (seq first count) as [|p pages IH]; [done|].
  cbn. by rewrite omap_app, IH.
Qed.

(** The walk over pages 1 to [k] with records and an empty page [k + 1]. *)
Lemma walk_of_pages (k fuel : nat) :
  (∀ p, 1 ≤ p ≤ S k → _raise_for_status (fetch p) = Ok tt) →
  (∀ p, 1 ≤ p ≤ k → reports_of (fetch p) ≠ []) →
  reports_of (fetch (S k)) = [] →
  (∀ p d, 1 ≤ p ≤ k → d ∈ reports_of (fetch p) →
          is_Some (d !! "id") ∧ is_Some (d !! "name")) →
  length (records_of_pages fetch 1 k) < fuel →
  consume fetch fuel _report_summaries_generator
  = (flat_map (λ p, Fetch p :: map Yield (summaries (reports_of (fetch p))))
              (seq 1 k) ++ [Fetch (S k)],
     Some Completed) ∧
  yields (flat_map (λ p, Fetch p :: map Yield (summaries (reports_of (fetch p))))
                   (seq 1 k) ++ [Fetch (S k)])
  = summaries (records_of_pages fetch 1 k).
Proof.
  intros Hok Hne Hempty Hwf Hfuel. split.
  - replace fuel
      with (length (records_of_pages fetch 1 k)
            + S (fuel - S (length (records_of_pages fetch 1 k)))) by lia.
    unfold _report_summaries_generator. apply consume_walk.
    + intros p Hp. apply Hok. lia.
    + intros p Hp. apply Hne. lia.
    + done.
    + intros p d Hp. apply Hwf. lia.
  - rewrite yields_app, yields_pages. cbn. rewrite app_nil_r.
    apply summaries_pages.
Qed.

(** A value among the summaries of the pages comes from a record of one
    of them. *)
Lemma elem_of_summaries_pages (first count : nat)
    (v : json * json * json_object) :
  v ∈ summaries (records_of_pages fetch first count) →
  ∃ p, first ≤ p < first + count ∧ v.2 ∈ reports_of (fetch p) ∧
       v.2 !! "id" = Some v.1.1 ∧ v.2 !! "name" = Some v.1.2.
Proof.
  unfold summaries. intros (d & Hd & Hv)%list_elem_of_omap.
  apply elem_of_records_of_pages in Hd as (p & Hp & Hd).
  destruct (summary_of d) as [w|] eqn:Hs; [|done]. simplify_eq.
  unfold summary_of in Hs. inv_ok. subst. cbn. by exists p.
Qed.

(** *** [export_definitions] *)

Lemma save_definitions_app (xs ys : list event) (e : option export_ending)
    (files : gmap string file) :
  save_definitions get_report can_open (xs ++ ys) e files =
    let '(requests, files', e') :=
      save_definitions get_report can_open xs None files in
    match e' with
    | Some x => (requests, files', Some x)
    | None =>
        let '(requests', files'', e'') :=
          save_definitions get_report can_open ys e files' in
        (requests ++ requests', files'', e'')
    end.
Proof.
  revert files. induction xs as [|[p|[[i n] d]] xs IH]; intros files;
    cbn [app save_definitions].
  - by destruct (save_definitions get_report can_open ys e files) as [[? ?] ?].
  - rewrite IH.
    destruct (save_definitions get_report can_open xs None files)
      as [[rq fs] [x|]]; [done|].
    by destruct (save_definitions get_report can_open ys e fs) as [[? ?] ?].
  - destruct (can_open (summary_output_path i)); cbn [negb]; [|done].
    destruct (_raise_for_status (get_report (py_str i))) as [[]|x]; [|done].
    destruct (can_open (details_output_path i)); cbn [negb]; [|done].
    rewrite IH.
    destruct (save_definitions get_report can_open xs None _)
      as [[rq fs] [x|]]; [done|].
    by destruct (save_definitions get_report can_open ys e fs) as [[? ?] ?].
Qed.

(** [export_definitions] is the walk of the generator with each value
    saved as it is yielded, up to the first request that is refused or the
    first file that cannot be opened. *)
Lemma export_definitions_follows_walk (fuel : nat) (g : generator)
    (files : gmap string file) :
  export_definitions_loop fetch get_report can_open fuel g files
  = save_definitions get_report can_open (consume fetch fuel g).1
                     (Walk <$> (consume fetch fuel g).2) files.
Proof.
  revert g files. induction fuel as [|fuel IH]; intros g files; [done|].
  cbn [export_definitions_loop consume].
  assert (Hfetch : ∀ fetched events e fs,
    save_definitions get_report can_open (map Fetch fetched ++ events) e fs
    = let '(requests, files', e') :=
        save_definitions get_report can_open events e fs in
      (map PostReports fetched ++ requests, files', e')).
  { intros fetched events e fs. induction fetched as [|p fetched IHf]; cbn.
    - by destruct (save_definitions get_report can_open events e fs)
        as [[? ?] ?].
    - rewrite IHf.
      by destruct (save_definitions get_report can_open events e fs)
        as [[? ?] ?]. }
  destruct (next fetch g) as [fetched [[[i n] d] g'| |e]].
  - destruct (consume fetch fuel g') as [events e] eqn:Hc. cbn [fst snd].
    rewrite Hfetch. cbn [save_definitions].
    destruct (can_open (summary_output_path i)); cbn [negb];
      [|by rewrite app_nil_r].
    destruct (_raise_for_status (get_report (py_str i))) as [[]|x]; [|done].
    destruct (can_open (details_output_path i)); cbn [negb]; [|done].
    rewrite IH, Hc. cbn [fst snd].
    by destruct (save_definitions get_report can_open events _ _) as [[? ?] ?].
  - cbn [fst snd].
    specialize (Hfetch fetched [] (Some (Walk Completed)) files).
    rewrite app_nil_r in Hfetch. cbn [fmap option_fmap option_map].
    rewrite Hfetch. cbn. by rewrite app_nil_r.
  - cbn [fst snd].
    specialize (Hfetch fetched [] (Some (Walk (Failed e))) files).
    rewrite app_nil_r in Hfetch. cbn [fmap option_fmap option_map].
    rewrite Hfetch. cbn. by rewrite app_nil_r.
Qed.

(** The requests of a run in which every value is saved whole. *)
Lemma save_definitions_accepted (events : list event)
    (e : option export_ending) (files : gmap string file) :
  (∀ v, v ∈ yields events → saves_definition get_report can_open v) →
  ∃ files',
    save_definitions get_report can_open events e files
    = (map request_of events, files', e).
Proof.
  revert files. induction events as [|[p|[[i n] d]] events IH]; intros files Hacc.
  - by eexists.
  - destruct (IH files Hacc) as [files' Hs]. cbn. rewrite Hs. by eexists.
  - cbn [save_definitions].
    destruct (Hacc (i, n, d)) as (Hs & Hst & Hd);
      [cbn; apply elem_of_cons; by left|].
    cbn in Hs, Hst, Hd. rewrite Hs, Hd. cbn [negb].
    unfold _raise_for_status. rewrite bool_decide_eq_false_2 by done.
    edestruct IH as [files' Hf]; [|rewrite Hf; by eexists].
    intros v Hv. apply Hacc. cbn. apply elem_of_cons. by right.
Qed.

(** A run only writes the two files of the values yielded: every other
    name keeps what it had. *)
Lemma save_definitions_other (events : list event) (e : option export_ending)
    (files : gmap string file) (name : string) :
  (∀ v, v ∈ yields events →
        name ≠ summary_output_path v.1.1 ∧ name ≠ details_output_path v.1.1) →
  (save_definitions get_report can_open events e files).1.2 !! name
  = files !! name.
Proof.
  revert files. induction events as [|[p|[[i n] d]] events IH]; intros files Hn.
  - done.
  - cbn. specialize (IH files Hn).
    by destruct (save_definitions get_report can_open events e files)
      as [[? ?] ?].
  - cbn [save_definitions].
    destruct (Hn (i, n, d)) as [Hs Hd]; [cbn; apply elem_of_cons; by left|].
    cbn in Hs, Hd.
    assert (Hn' : ∀ v, v ∈ yields events →
      name ≠ summary_output_path v.1.1 ∧ name ≠ details_output_path v.1.1).
    { intros v Hv. apply Hn. cbn. apply elem_of_cons. by right. }
    destruct (can_open (summary_output_path i)); cbn [negb]; [|done].
    destruct (_raise_for_status (get_report (py_str i))) as [[]|x];
      [|cbn; by rewrite lookup_insert_ne].
    destruct (can_open (details_output_path i)); cbn [negb];
      [|cbn; by rewrite lookup_insert_ne].
    specialize (IH (<[details_output_path i :=
                        JsonFile (json_body (get_report (py_str i)))]>
                      (<[summary_output_path i := JsonFile d]> files)) Hn').
    destruct (save_definitions get_report can_open events e _) as [[? ?] ?].
    cbn in *. by rewrite IH, !lookup_insert_ne.
Qed.

(** No file disappears. *)
Lemma save_definitions_keeps (events : list event) (e : option export_ending)
    (files : gmap string file) :
  dom files ⊆ dom (save_definitions get_report can_open events e files).1.2.
Proof.
  revert files. induction events as [|[p|[[i n] d]] events IH]; intros files.
  - done.
  - cbn. specialize (IH files).
    by destruct (save_definitions get_report can_open events e files)
      as [[? ?] ?].
  - cbn [save_definitions].
    assert (Hone : dom files
                   ⊆ dom (<[summary_output_path i := JsonFile d]> files)).
    { rewrite dom_insert. intros y Hy. rewrite elem_of_union. by right. }
    destruct (can_open (summary_output_path i)); cbn [negb]; [|done].
    destruct (_raise_for_status (get_report (py_str i))) as [[]|x]; [|done].
    destruct (can_open (details_output_path i)); cbn [negb]; [|done].
    specialize (IH (<[details_output_path i :=
                        JsonFile (json_body (get_report (py_str i)))]>
                      (<[summary_output_path i := JsonFile d]> files))).
    destruct (save_definitions get_report can_open events e _) as [[? ?] ?].
    cbn in *. etrans; [|exact IH]. rewrite !dom_insert.
    intros x Hx. rewrite !elem_of_union. by right; right.
Qed.

(** When every value is saved whole and no two values yielded have the
    same identifier once formatted, each value has its two files at the
    end, with its own content. *)
Lemma save_definitions_saved (events : list event) (e : option export_ending)
    (files : gmap string file) (v : json * json * json_object) :
  (∀ v, v ∈ yields events → saves_definition get_report can_open v) →
  NoDup (map (λ v, py_str v.1.1) (yields events)) →
  v ∈ yields events →
  (save_definitions get_report can_open events e files).1.2
    !! summary_output_path v.1.1 = Some (JsonFile v.2) ∧
  (save_definitions get_report can_open events e files).1.2
    !! details_output_path v.1.1
    = Some (JsonFile (json_body (get_report (py_str v.1.1)))).
Proof.
  revert files. induction events as [|[p|[[i n] d]] events IH];
    intros files Hacc Hnd Hv.
  - by apply elem_of_nil in Hv.
  - cbn. specialize (IH files Hacc Hnd Hv).
    by destruct (save_definitions get_report can_open events e files)
      as [[? ?] ?].
  - cbn [save_definitions].
    destruct (Hacc (i, n, d)) as (Hs & Hst & Hd);
      [cbn; apply elem_of_cons; by left|].
    cbn in Hs, Hst, Hd. rewrite Hs, Hd. cbn [negb].
    unfold _raise_for_status. rewrite bool_decide_eq_false_2 by done.
    cbn in Hnd, Hv. apply NoDup_cons in Hnd as [Hfresh Hnd].
    assert (Hacc' : ∀ v, v ∈ yields events →
              saves_definition get_report can_open v).
    { intros w Hw. apply Hacc. cbn. apply elem_of_cons. by right. }
    apply elem_of_cons in Hv as [->|Hv].
    + pose proof (save_definitions_other events e
        (<[details_output_path i := JsonFile (json_body (get_report (py_str i)))]>
           (<[summary_output_path i := JsonFile d]> files))) as Hother.
      destruct (save_definitions get_report can_open events e _) as [[? ?] ?].
      cbn in *. split.
      * rewrite Hother.
        -- rewrite lookup_insert_ne
             by (intros Heq; by apply (summary_is_not_details i i)).
           by rewrite lookup_insert_eq.
        -- intros w Hw. split.
           ++ intros Heq%summary_output_path_inj. apply Hfresh.
              rewrite Heq. apply list_elem_of_fmap. by exists w.
           ++ apply summary_is_not_details.
      * rewrite Hother; [by rewrite lookup_insert_eq|].
        intros w Hw. split.
        -- intros Heq. by apply (summary_is_not_details w.1.1 i).
        -- intros Heq%details_output_path_inj. apply Hfresh.
           rewrite Heq. apply list_elem_of_fmap. by exists w.
    + specialize (IH (<[details_output_path i :=
                          JsonFile (json_body (get_report (py_str i)))]>
                        (<[summary_output_path i := JsonFile d]> files))
                     Hacc' Hnd Hv).
      by destruct (save_definitions get_report can_open events e _)
        as [[? ?] ?].
Qed.

Lemma request_of_pages (f : nat → list (json * json * json_object))
    (pages : list nat) :
  map request_of (flat_map (λ p, Fetch p :: map Yield (f p)) pages)
  = flat_map (λ p, PostReports p :: map (λ v, GetReport (py_str v.1.1)) (f p))
             pages.
Proof.
  induction pages as [|p pages IH]; [done|].
  cbn [flat_map]. rewrite map_app, IH. cbn. do 2 f_equal.
  rewrite map_map. apply map_ext. by intros [[i n] d].
Qed.

(** X10. [export_definitions] over pages 1 to [k] with records and an empty
    page [k + 1], every file opening and every request for details
    accepted: the details of a report are requested right after its summary
    is yielded, one request per summary, in the order of discovery, before
    the next page is asked for; no file disappears, no file other than the
    two of each report changes, and when the formatted identifiers are
    distinct each report has its summary and its details on file. *)
Theorem export_definitions_complete (k fuel : nat) (files : gmap string file) :
  (∀ p, 1 ≤ p ≤ S k → _raise_for_status (fetch p) = Ok tt) →
  (∀ p, 1 ≤ p ≤ k → reports_of (fetch p) ≠ []) →
  reports_of (fetch (S k)) = [] →
  (∀ p d, 1 ≤ p ≤ k → d ∈ reports_of (fetch p) →
          is_Some (d !! "id") ∧ is_Some (d !! "name")) →
  (∀ p d i, 1 ≤ p ≤ k → d ∈ reports_of (fetch p) → d !! "id" = Some i →
            can_open (summary_output_path i) = true ∧
            ¬ (400 ≤ status_code (get_report (py_str i)) < 600) ∧
            can_open (details_output_path i) = true) →
  length (records_of_pages fetch 1 k) < fuel →
  let values := summaries (records_of_pages fetch 1 k) in
  ∃ files',
    export_definitions fetch get_report can_open fuel files
    = (flat_map (λ p, PostReports p
                      :: map (λ v, GetReport (py_str v.1.1))
                             (summaries (reports_of (fetch p))))
                (seq 1 k) ++ [PostReports (S k)],
       files', Some (Walk Completed)) ∧
    dom files ⊆ dom files' ∧
    (∀ name,
       (∀ v, v ∈ values → name ≠ summary_output_path v.1.1 ∧
                          name ≠ details_output_path v.1.1) →
       files' !! name = files !! name) ∧
    (NoDup (map (λ v, py_str v.1.1) values) →
     ∀ v, v ∈ values →
       files' !! summary_output_path v.1.1 = Some (JsonFile v.2) ∧
       files' !! details_output_path v.1.1
         = Some (JsonFile (json_body (get_report (py_str v.1.1))))).
Proof.
  intros Hok Hne Hempty Hwf Hacc Hfuel values.
  destruct (walk_of_pages k fuel Hok Hne Hempty Hwf Hfuel) as [Hwalk Hyields].
  set (events := flat_map (λ p, Fetch p :: map Yield (summaries (reports_of (fetch p))))
                          (seq 1 k) ++ [Fetch (S k)]) in *.
  fold values in Hyields.
  assert (Haccepted : ∀ v, v ∈ yields events →
            saves_definition get_report can_open v).
  { rewrite Hyields. intros v (p & Hp & Hd & Hi & _)%elem_of_summaries_pages.
    apply (Hacc p v.2); [lia|done|done]. }
  unfold export_definitions. rewrite export_definitions_follows_walk, Hwalk.
  cbn [fst snd fmap option_fmap option_map].
  destruct (save_definitions_accepted events (Some (Walk Completed)) files
              Haccepted) as [files' Hs].
  exists files'. split.
  { rewrite Hs. unfold events at 1. rewrite map_app, request_of_pages. done. }
  pose proof (save_definitions_keeps events (Some (Walk Completed)) files)
    as Hkeep.
  pose proof (save_definitions_other events (Some (Walk Completed)) files)
    as Hother.
  pose proof (save_definitions_saved events (Some (Walk Completed)) files)
    as Hsaved.
  rewrite Hs, Hyields in *. cbn [fst snd] in *.
  split; [done|]. split; [done|].
  intros Hnd v Hv. by apply Hsaved.
Qed.

(** X11. [export_definitions] when the details of a report are refused: the
    run ends with the status, this request being the last one; the summary
    of the report has been written, and its details have not. *)
Theorem export_definitions_refused (fuel : nat) (before after : list event)
    (e : option ending) (i n : json) (d : json_object)
    (files : gmap string file) :
  consume fetch fuel _report_summaries_generator
    = (before ++ Yield (i, n, d) :: after, e) →
  (∀ v, v ∈ yields before → saves_definition get_report can_open v) →
  can_open (summary_output_path i) = true →
  400 ≤ status_code (get_report (py_str i)) < 600 →
  ∃ files',
    export_definitions fetch get_report can_open fuel files
    = (map request_of before ++ [GetReport (py_str i)], files',
       Some (Walk (Failed (HTTPError (status_code (get_report (py_str i))))))) ∧
    files' !! summary_output_path i = Some (JsonFile d) ∧
    (files !! details_output_path i = None →
     py_str i ∉ map (λ v, py_str v.1.1) (yields before) →
     files' !! details_output_path i = None).
Proof.
  intros Hwalk Hacc Hopen Hrefused.
  unfold export_definitions. rewrite export_definitions_follows_walk, Hwalk.
  cbn [fst snd]. rewrite save_definitions_app.
  destruct (save_definitions_accepted before None files Hacc) as [files1 Hs].
  pose proof (save_definitions_other before None files) as Hother.
  rewrite Hs in *. cbn [fst snd save_definitions] in *.
  rewrite Hopen. cbn [negb].
  unfold _raise_for_status. rewrite bool_decide_eq_true_2 by done.
  eexists. split; [done|]. split; [by rewrite lookup_insert_eq|].
  intros Hnone Hfresh.
  rewrite lookup_insert_ne
    by (intros Heq; by apply (summary_is_not_details i i)).
  rewrite Hother; [done|]. intros v Hv. split.
  - intros Heq. by apply (summary_is_not_details v.1.1 i).
  - intros Heq%details_output_path_inj. apply Hfresh. rewrite Heq.
    apply list_elem_of_fmap. by exists v.
Qed.

(** X25. [export_definitions] when the summary file of a report cannot be
    opened: the run ends with the error of [open] before anything is
    written or requested for this report, so that its details are never
    asked for; the files are those left by the reports before it. *)
Theorem export_definitions_unopenable (fuel : nat) (before after : list event)
    (e : option ending) (i n : json) (d : json_object)
    (files : gmap string file) :
  consume fetch fuel _report_summaries_generator
    = (before ++ Yield (i, n, d) :: after, e) →
  (∀ v, v ∈ yields before → saves_definition get_report can_open v) →
  can_open (summary_output_path i) = false →
  ∃ files',
    export_definitions fetch get_report can_open fuel files
    = (map request_of before, files',
       Some (OpenFailed (summary_output_path i))) ∧
    (∀ name,
       (∀ v, v ∈ yields before → name ≠ summary_output_path v.1.1 ∧
                                 name ≠ details_output_path v.1.1) →
       files' !! name = files !! name).
Proof.
  intros Hwalk Hacc Hopen.
  unfold export_definitions. rewrite export_definitions_follows_walk, Hwalk.
  cbn [fst snd]. rewrite save_definitions_app.
  destruct (save_definitions_accepted before None files Hacc) as [files1 Hs].
  pose proof (save_definitions_other before None files) as Hother.
  rewrite Hs in *. cbn [fst snd save_definitions] in *.
  rewrite Hopen. cbn [negb]. rewrite app_nil_r.
  eexists. split; [done|]. done.
Qed.

(** *** [export_contents] *)

Lemma save_contents_app (report_format : string) (xs ys : list event)
    (e : option export_ending) (files : gmap string file) :
  save_contents get_export can_open report_format (xs ++ ys) e files =
    let '(requests, files', e') :=
      save_contents get_export can_open report_format xs None files in
    match e' with
    | Some x => (requests, files', Some x)
    | None =>
        let '(requests', files'', e'') :=
          save_contents get_export can_open report_format ys e files' in
        (requests ++ requests', files'', e'')
    end.
Proof.
  revert files. induction xs as [|[p|[[i n] d]] xs IH]; intros files;
    cbn [app save_contents].
  - by destruct (save_contents get_export can_open report_format ys e files)
      as [[? ?] ?].
  - rewrite IH.
    destruct (save_contents get_export can_open report_format xs None files)
      as [[rq fs] [x|]]; [done|].
    by destruct (save_contents get_export can_open report_format ys e fs)
      as [[? ?] ?].
  - destruct (_raise_for_status (get_export _ _ _)) as [[]|x]; [|done].
    destruct (can_open (output_path i n)); cbn [negb]; [|done].
    rewrite IH.
    destruct (save_contents get_export can_open report_format xs None _)
      as [[rq fs] [x|]]; [done|].
    by destruct (save_contents get_export can_open report_format ys e fs)
      as [[? ?] ?].
Qed.

(** [export_contents] is the walk of the generator with each report
    downloaded as it is yielded, up to the first request that is refused or
    the first file that cannot be opened. *)
Lemma export_contents_follows_walk (report_format : string) (fuel : nat)
    (g : generator) (files : gmap string file) :
  export_contents_loop fetch get_export can_open report_format fuel g files
  = save_contents get_export can_open report_format (consume fetch fuel g).1
                  (Walk <$> (consume fetch fuel g).2) files.
Proof.
  revert g files. induction fuel as [|fuel IH]; intros g files; [done|].
  cbn [export_contents_loop consume].
  assert (Hfetch : ∀ fetched events e fs,
    save_contents get_export can_open report_format
                  (map Fetch fetched ++ events) e fs
    = let '(requests, files', e') :=
        save_contents get_export can_open report_format events e fs in
      (map PostReports fetched ++ requests, files', e')).
  { intros fetched events e fs. induction fetched as [|p fetched IHf]; cbn.
    - by destruct (save_contents get_export can_open report_format events e fs)
        as [[? ?] ?].
    - rewrite IHf.
      by destruct (save_contents get_export can_open report_format events e fs)
        as [[? ?] ?]. }
  destruct (next fetch g) as [fetched [[[i n] d] g'| |e]].
  - destruct (consume fetch fuel g') as [events e] eqn:Hc. cbn [fst snd].
    rewrite Hfetch. cbn [save_contents].
    destruct (_raise_for_status (get_export _ _ _)) as [[]|x]; [|done].
    destruct (can_open (output_path i n)); cbn [negb]; [|done].
    rewrite IH, Hc. cbn [fst snd].
    by destruct (save_contents get_export can_open report_format events _ _)
      as [[? ?] ?].
  - cbn [fst snd].
    specialize (Hfetch fetched [] (Some (Walk Completed)) files).
    rewrite app_nil_r in Hfetch. cbn [fmap option_fmap option_map].
    rewrite Hfetch. cbn. by rewrite app_nil_r.
  - cbn [fst snd].
    specialize (Hfetch fetched [] (Some (Walk (Failed e))) files).
    rewrite app_nil_r in Hfetch. cbn [fmap option_fmap option_map].
    rewrite Hfetch. cbn. by rewrite app_nil_r.
Qed.

Lemma save_contents_accepted (report_format : string) (events : list event)
    (e : option export_ending) (files : gmap string file) :
  (∀ v, v ∈ yields events →
        saves_content get_export can_open report_format v) →
  ∃ files',
    save_contents get_export can_open report_format events e files
    = (map (download_of report_format) events, files', e).
Proof.
  revert files. induction events as [|[p|[[i n] d]] events IH]; intros files Hacc.
  - by eexists.
  - destruct (IH files Hacc) as [files' Hs]. cbn. rewrite Hs. by eexists.
  - cbn [save_contents].
    destruct (Hacc (i, n, d)) as (Hst & Hopen);
      [cbn; apply elem_of_cons; by left|].
    unfold export_of in Hst. cbn in Hst, Hopen.
    unfold _raise_for_status. rewrite bool_decide_eq_false_2 by done.
    rewrite Hopen. cbn [negb].
    edestruct IH as [files' Hf]; [|rewrite Hf; by eexists].
    intros v Hv. apply Hacc. cbn. apply elem_of_cons. by right.
Qed.

Lemma save_contents_other (report_format : string) (events : list event)
    (e : option export_ending) (files : gmap string file) (name : string) :
  (∀ v, v ∈ yields events → name ≠ output_path v.1.1 v.1.2) →
  (save_contents get_export can_open report_format events e files).1.2 !! name
  = files !! name.
Proof.
  revert files. induction events as [|[p|[[i n] d]] events IH]; intros files Hn.
  - done.
  - cbn. specialize (IH files Hn).
    by destruct (save_contents get_export can_open report_format events e files)
      as [[? ?] ?].
  - cbn [save_contents].
    assert (Hi : name ≠ output_path i n).
    { apply (Hn (i, n, d)). cbn. apply elem_of_cons. by left. }
    assert (Hn' : ∀ v, v ∈ yields events → name ≠ output_path v.1.1 v.1.2).
    { intros v Hv. apply Hn. cbn. apply elem_of_cons. by right. }
    destruct (_raise_for_status (get_export _ _ _)) as [[]|x]; [|done].
    destruct (can_open (output_path i n)); cbn [negb]; [|done].
    specialize (IH (<[output_path i n := BinaryFile (write_chunks (json_body
      (get_export (py_str i) (py_str i +:+ "-" +:+ py_str n) report_format)))]>
      files) Hn').
    destruct (save_contents get_export can_open report_format events e _)
      as [[? ?] ?].
    cbn in *. by rewrite IH, lookup_insert_ne.
Qed.

Lemma save_contents_keeps (report_format : string) (events : list event)
    (e : option export_ending) (files : gmap string file) :
  dom files
  ⊆ dom (save_contents get_export can_open report_format events e files).1.2.
Proof.
  revert files. induction events as [|[p|[[i n] d]] events IH]; intros files.
  - done.
  - cbn. specialize (IH files).
    by destruct (save_contents get_export can_open report_format events e files)
      as [[? ?] ?].
  - cbn [save_contents].
    destruct (_raise_for_status (get_export _ _ _)) as [[]|x]; [|done].
    destruct (can_open (output_path i n)); cbn [negb]; [|done].
    specialize (IH (<[output_path i n := BinaryFile (write_chunks (json_body
      (get_export (py_str i) (py_str i +:+ "-" +:+ py_str n) report_format)))]>
      files)).
    destruct (save_contents get_export can_open report_format events e _)
      as [[? ?] ?].
    cbn in *. etrans; [|exact IH]. rewrite dom_insert.
    intros x Hx. rewrite elem_of_union. by right.
Qed.

Lemma save_contents_saved (report_format : string) (events : list event)
    (e : option export_ending) (files : gmap string file)
    (v : json * json * json_object) :
  (∀ v, v ∈ yields events →
        saves_content get_export can_open report_format v) →
  NoDup (map (λ v, output_path v.1.1 v.1.2) (yields events)) →
  v ∈ yields events →
  (save_contents get_export can_open report_format events e files).1.2
    !! output_path v.1.1 v.1.2
  = Some (BinaryFile (write_chunks
                        (json_body (export_of get_export report_format v)))).
Proof.
  revert files. induction events as [|[p|[[i n] d]] events IH];
    intros files Hacc Hnd Hv.
  - by apply elem_of_nil in Hv.
  - cbn. specialize (IH files Hacc Hnd Hv).
    by destruct (save_contents get_export can_open report_format events e files)
      as [[? ?] ?].
  - cbn [save_contents].
    destruct (Hacc (i, n, d)) as (Hst & Hopen);
      [cbn; apply elem_of_cons; by left|].
    unfold export_of in Hst. cbn in Hst, Hopen.
    unfold _raise_for_status. rewrite bool_decide_eq_false_2 by done.
    rewrite Hopen. cbn [negb].
    cbn in Hnd, Hv. apply NoDup_cons in Hnd as [Hfresh Hnd].
    assert (Hacc' : ∀ v, v ∈ yields events →
              saves_content get_export can_open report_format v).
    { intros w Hw. apply Hacc. cbn. apply elem_of_cons. by right. }
    apply elem_of_cons in Hv as [->|Hv].
    + pose proof (save_contents_other report_format events e
        (<[output_path i n := BinaryFile (write_chunks (json_body
          (get_export (py_str i) (py_str i +:+ "-" +:+ py_str n) report_format)))]>
          files) (output_path i n)) as Hother.
      destruct (save_contents get_export can_open report_format events e _)
        as [[? ?] ?].
      cbn in *. rewrite Hother; [by rewrite lookup_insert_eq|].
      intros w Hw Heq. apply Hfresh. rewrite Heq.
      apply list_elem_of_fmap. by exists w.
    + specialize (IH (<[output_path i n := BinaryFile (write_chunks (json_body
        (get_export (py_str i) (py_str i +:+ "-" +:+ py_str n) report_format)))]>
        files) Hacc' Hnd Hv).
      by destruct (save_contents get_export can_open report_format events e _)
        as [[? ?] ?].
Qed.

Lemma download_of_pages (report_format : string)
    (f : nat → list (json * json * json_object)) (pages : list nat) :
  map (download_of report_format)
      (flat_map (λ p, Fetch p :: map Yield (f p)) pages)
  = flat_map (λ p, PostReports p
                   :: map (λ v, GetExport (py_str v.1.1)
                                  (py_str v.1.1 +:+ "-" +:+ py_str v.1.2)
                                  report_format) (f p))
             pages.
Proof.
  induction pages as [|p pages IH]; [done|].
  cbn [flat_map]. rewrite map_app, IH. cbn. do 2 f_equal.
  rewrite map_map. apply map_ext. by intros [[i n] d].
Qed.

(** X12. [export_contents] over pages 1 to [k] with records and an empty
    page [k + 1], every download accepted and every archive opening: each
    report is downloaded right after it is yielded, with the file name and
    the format as parameters, in the order of discovery; no file
    disappears, no file other than the archives of the reports changes,
    and when the names of the archives are distinct each holds the chunks
    of its download in order. *)
Theorem export_contents_complete (report_format : string) (k fuel : nat)
    (files : gmap string file) :
  (∀ p, 1 ≤ p ≤ S k → _raise_for_status (fetch p) = Ok tt) →
  (∀ p, 1 ≤ p ≤ k → reports_of (fetch p) ≠ []) →
  reports_of (fetch (S k)) = [] →
  (∀ p d, 1 ≤ p ≤ k → d ∈ reports_of (fetch p) →
          is_Some (d !! "id") ∧ is_Some (d !! "name")) →
  (∀ p d i n, 1 ≤ p ≤ k → d ∈ reports_of (fetch p) →
              d !! "id" = Some i → d !! "name" = Some n →
              ¬ (400 ≤ status_code
                         (get_export (py_str i)
                            (py_str i +:+ "-" +:+ py_str n) report_format)
                 < 600) ∧
              can_open (output_path i n) = true) →
  length (records_of_pages fetch 1 k) < fuel →
  let values := summaries (records_of_pages fetch 1 k) in
  ∃ files',
    export_contents fetch get_export can_open report_format fuel files
    = (flat_map (λ p, PostReports p
                      :: map (λ v, GetExport (py_str v.1.1)
                                     (py_str v.1.1 +:+ "-" +:+ py_str v.1.2)
                                     report_format)
                             (summaries (reports_of (fetch p))))
                (seq 1 k) ++ [PostReports (S k)],
       files', Some (Walk Completed)) ∧
    dom files ⊆ dom files' ∧
    (∀ name,
       (∀ v, v ∈ values → name ≠ output_path v.1.1 v.1.2) →
       files' !! name = files !! name) ∧
    (NoDup (map (λ v, output_path v.1.1 v.1.2) values) →
     ∀ v, v ∈ values →
       files' !! output_path v.1.1 v.1.2
       = Some (BinaryFile (write_chunks (json_body
           (get_export (py_str v.1.1)
              (py_str v.1.1 +:+ "-" +:+ py_str v.1.2) report_format))))).
Proof.
  intros Hok Hne Hempty Hwf Hacc Hfuel values.
  destruct (walk_of_pages k fuel Hok Hne Hempty Hwf Hfuel) as [Hwalk Hyields].
  set (events := flat_map (λ p, Fetch p :: map Yield (summaries (reports_of (fetch p))))
                          (seq 1 k) ++ [Fetch (S k)]) in *.
  fold values in Hyields.
  assert (Haccepted : ∀ v, v ∈ yields events →
            saves_content get_export can_open report_format v).
  { rewrite Hyields.
    intros v (p & Hp & Hd & Hi & Hn)%elem_of_summaries_pages.
    apply (Hacc p v.2); [lia|done|done|done]. }
  unfold export_contents. rewrite export_contents_follows_walk, Hwalk.
  cbn [fst snd fmap option_fmap option_map].
  destruct (save_contents_accepted report_format events
              (Some (Walk Completed)) files Haccepted) as [files' Hs].
  exists files'. split.
  { rewrite Hs. unfold events at 1. rewrite map_app, download_of_pages. done. }
  pose proof (save_contents_keeps report_format events
                (Some (Walk Completed)) files) as Hkeep.
  pose proof (save_contents_other report_format events
                (Some (Walk Completed)) files) as Hother.
  pose proof (save_contents_saved report_format events
                (Some (Walk Completed)) files) as Hsaved.
  rewrite Hs, Hyields in *. cbn [fst snd] in *.
  split; [done|]. split; [done|].
  intros Hnd v Hv. by apply Hsaved.
Qed.

(** X13. [export_contents] when a download is refused: the run ends with the
    status, this request being the last one, and nothing is written for
    the report: the files are those left by the reports before it. *)
Theorem export_contents_refused (report_format : string) (fuel : nat)
    (before after : list event) (e : option ending) (i n : json)
    (d : json_object) (files : gmap string file) :
  consume fetch fuel _report_summaries_generator
    = (before ++ Yield (i, n, d) :: after, e) →
  (∀ v, v ∈ yields before →
        saves_content get_export can_open report_format v) →
  400 ≤ status_code
          (get_export (py_str i) (py_str i +:+ "-" +:+ py_str n) report_format)
    < 600 →
  ∃ files',
    export_contents fetch get_export can_open report_format fuel files
    = (map (download_of report_format) before
         ++ [GetExport (py_str i) (py_str i +:+ "-" +:+ py_str n) report_format],
       files',
       Some (Walk (Failed (HTTPError (status_code
         (get_export (py_str i) (py_str i +:+ "-" +:+ py_str n)
            report_format)))))) ∧
    (∀ name,
       (∀ v, v ∈ yields before → name ≠ output_path v.1.1 v.1.2) →
       files' !! name = files !! name).
Proof.
  intros Hwalk Hacc Hrefused.
  unfold export_contents. rewrite export_contents_follows_walk, Hwalk.
  cbn [fst snd]. rewrite save_contents_app.
  destruct (save_contents_accepted report_format before None files Hacc)
    as [files1 Hs].
  pose proof (save_contents_other report_format before None files) as Hother.
  rewrite Hs in *. cbn [fst snd save_contents] in *.
  unfold _raise_for_status. rewrite bool_decide_eq_true_2 by done.
  eexists. split; [done|]. done.
Qed.

(** X26. [export_contents] when the archive of a report cannot be opened,
    as when the name of the report has a [/] and no such directory is
    there: the download has been requested and accepted, the run ends with
    the error of [open], and nothing is written for the report. *)
Theorem export_contents_unopenable (report_format : string) (fuel : nat)
    (before after : list event) (e : option ending) (i n : json)
    (d : json_object) (files : gmap string file) :
  consume fetch fuel _report_summaries_generator
    = (before ++ Yield (i, n, d) :: after, e) →
  (∀ v, v ∈ yields before →
        saves_content get_export can_open report_format v) →
  ¬ (400 ≤ status_code
             (get_export (py_str i) (py_str i +:+ "-" +:+ py_str n)
                report_format)
     < 600) →
  can_open (output_path i n) = false →
  ∃ files',
    export_contents fetch get_export can_open report_format fuel files
    = (map (download_of report_format) before
         ++ [GetExport (py_str i) (py_str i +:+ "-" +:+ py_str n) report_format],
       files', Some (OpenFailed (output_path i n))) ∧
    (∀ name,
       (∀ v, v ∈ yields before → name ≠ output_path v.1.1 v.1.2) →
       files' !! name = files !! name).
Proof.
  intros Hwalk Hacc Haccepted Hopen.
  unfold export_contents. rewrite export_contents_follows_walk, Hwalk.
  cbn [fst snd]. rewrite save_contents_app.
  destruct (save_contents_accepted report_format before None files Hacc)
    as [files1 Hs].
  pose proof (save_contents_other report_format before None files) as Hother.
  rewrite Hs in *. cbn [fst snd save_contents] in *.
  unfold _raise_for_status. rewrite bool_decide_eq_false_2 by done.
  rewrite Hopen. cbn [negb].
  eexists. split; [done|]. done.
Qed.

End harvest.

End ExportFacts.

(** ** sites_diff.py: more on the report *)
Module SitesDiffMoreFacts.
Import SitesDiff SitesDiffFacts.

Lemma for_each_ext {X S} (f g : X → S → result S) (xs : list X) (s : S) :
  (∀ x s, x ∈ xs → f x s = g x s) →
  for_each f xs s = for_each g xs s.
Proof.
  revert s. induction xs as [|x xs IH]; intros s Hfg; [done|]. cbn.
  rewrite Hfg by (apply elem_of_cons; by left).
  destruct (g x s) as [s'|e]; [|done]. cbn.
  apply IH. intros y t Hy. apply Hfg, elem_of_cons. by right.
Qed.

Lemma differs_at_sym (i1 i2 : gmap string (gmap string string)) (uri : string) :
  differs_at i1 i2 uri ↔ differs_at i2 i1 uri.
Proof.
  unfold differs_at, sha_mismatch.
  split; intros (a & b & Ha & Hb & [H|H]); exists b, a;
    repeat split; try done; [left|right|left|right]; congruence.
Qed.

(** [{item[field]: item for item in items}]: of the items with the same
    key the last one is kept. *)
Lemma dict_by_last (field : string) (items : list (gmap string string))
    (acc d : gmap string (gmap string string)) (k : string) :
  dict_by field items acc = Ok d →
  d !! k = match last (filter (λ it, it !! field = Some k) items) with
           | Some it => Some it
           | None => acc !! k
           end.
Proof.
  revert acc. induction items as [|it items IH]; intros acc; cbn [dict_by].
  - intros H. inv_ok. by subst.
  - intros H. inv_ok. rename select (it !! field = Some _) into Hk.
    rename select (dict_by _ _ _ = _) into Hrest.
    apply IH in Hrest. rewrite Hrest, filter_cons.
    destruct (decide (it !! field = Some k)) as [Heq|Hne].
    + rewrite last_cons. rewrite Hk in Heq. simplify_eq.
      destruct (last _); [done|]. by rewrite lookup_insert_eq.
    + destruct (last _); [done|]. rewrite lookup_insert_ne; [done|].
      intros ->. by rewrite Hk in Hne.
Qed.

Lemma dict_by_Ok_iff (field : string) (items : list (gmap string string))
    (acc : gmap string (gmap string string)) :
  (∃ d, dict_by field items acc = Ok d) ↔
  Forall (λ it, is_Some (it !! field)) items.
Proof.
  revert acc. induction items as [|it items IH]; intros acc; cbn.
  - split; [constructor|by eexists].
  - unfold getitem. destruct (it !! field) as [k|] eqn:Hk; cbn.
    + rewrite IH, Forall_cons, Hk.
      split; [intros Hall; split; [by eexists|done] | intros [_ Hall]; exact Hall].
    + split; [by intros [? ?]|]. intros [[? ?] _]%Forall_cons. congruence.
Qed.

Lemma dict_by_Raise (field : string) (items : list (gmap string string))
    (acc : gmap string (gmap string string)) (e : exn) :
  dict_by field items acc = Raise e → e = KeyError field.
Proof.
  revert acc. induction items as [|it items IH]; intros acc; cbn; [done|].
  unfold getitem. destruct (it !! field) as [k|]; cbn; [apply IH|].
  by intros [= <-].
Qed.

Section more.

Variable set_iter : gset string → list string.
Hypothesis set_iter_perm : ∀ X, set_iter X ≡ₚ elements X.

(** X14. Swapping the two sites swaps the two lists of missing repositories
    and leaves the list of mismatches as it is, up to the order. *)
Theorem diff_swap_repositories (site_1 site_2 : site)
    (exclude exclude' : bool) (rep rep' : report) :
  diff set_iter site_1 site_2 exclude = Ok rep →
  diff set_iter site_2 site_1 exclude' = Ok rep' →
  missing_in_1 (repositories rep) ≡ₚ missing_in_2 (repositories rep') ∧
  missing_in_2 (repositories rep) ≡ₚ missing_in_1 (repositories rep') ∧
  rclass_mismatch (repositories rep) ≡ₚ rclass_mismatch (repositories rep').
Proof.
  intros H H'.
  apply (diff_Ok set_iter set_iter_perm) in H
    as (r1 & r2 & H1 & H2 & -> & -> & -> & _).
  apply (diff_Ok set_iter set_iter_perm) in H'
    as (r2' & r1' & H2' & H1' & -> & -> & -> & _).
  rewrite H1 in H1'. rewrite H2 in H2'. simplify_eq.
  split; [done|]. split; [done|].
  rewrite (comm_L (∩) (dom r2') (dom r1')).
  erewrite list_filter_iff; [done|]. intros k. cbn. split; congruence.
Qed.

(** X17. Every key of the artifacts map is a repository of both sites whose
    type on side 1 is neither [VIRTUAL] nor [REMOTE]. *)
Theorem artifacts_keys_are_compared (site_1 site_2 : site) (exclude : bool)
    (rep : report) (artifacts_report : gmap string (gmap string (list string)))
    (key : string) :
  diff set_iter site_1 site_2 exclude = Ok rep →
  artifacts rep = Some artifacts_report →
  key ∈ dom artifacts_report →
  exclude = false ∧
  ∃ repositories_1 repositories_2 rclass_1,
    _repository_keys site_1 = Ok repositories_1 ∧
    _repository_keys site_2 = Ok repositories_2 ∧
    key ∈ exists_in_both repositories_1 repositories_2 ∧
    rclass repositories_1 key = Some rclass_1 ∧
    rclass_1 ≠ "VIRTUAL" ∧ rclass_1 ≠ "REMOTE".
Proof.
  intros Hdiff Har [rec Hrec]%elem_of_dom.
  destruct (compared_record set_iter set_iter_perm _ _ _ _ _ _ _ Hdiff Har Hrec)
    as (r1 & r2 & t & i1 & i2 & H1 & H2 & Hk1 & Hk2 & Ht & Hagg & _).
  split.
  { destruct exclude; [|done].
    apply (diff_Ok set_iter set_iter_perm) in Hdiff
      as (? & ? & _ & _ & _ & _ & _ & _ & Hnone). congruence. }
  exists r1, r2, t. do 2 (split; [done|]).
  split; [unfold exists_in_both; by apply elem_of_intersection|].
  split; [done|]. unfold aggregating in Hagg. split; intros ->; apply Hagg; [by left|by right].
Qed.

(** X18. In the record of a compared repository the three lists are exact and
    without repetition: a path is under ["missing_in_1"] exactly when only
    side 2 lists it, under ["missing_in_2"] exactly when only side 1 lists
    it, and under ["diffs"] exactly when both list it with a different
    [sha1] or [sha2]. *)
Theorem record_lists_are_exact (site_1 site_2 : site) (rep : report)
    (artifacts_report : gmap string (gmap string (list string)))
    (repositories_1 repositories_2 : gmap string (gmap string string))
    (key rclass_1 : string)
    (items_in_1 items_in_2 : gmap string (gmap string string)) :
  diff set_iter site_1 site_2 false = Ok rep →
  artifacts rep = Some artifacts_report →
  _repository_keys site_1 = Ok repositories_1 →
  _repository_keys site_2 = Ok repositories_2 →
  key ∈ exists_in_both repositories_1 repositories_2 →
  rclass repositories_1 key = Some rclass_1 →
  ¬ aggregating rclass_1 →
  _list_items site_1 key = Ok items_in_1 →
  _list_items site_2 key = Ok items_in_2 →
  (∀ uri, uri ∈ reported artifacts_report key "missing_in_1" ↔
          uri ∈ dom items_in_2 ∧ uri ∉ dom items_in_1) ∧
  (∀ uri, uri ∈ reported artifacts_report key "missing_in_2" ↔
          uri ∈ dom items_in_1 ∧ uri ∉ dom items_in_2) ∧
  (∀ uri, uri ∈ reported artifacts_report key "diffs" ↔
          differs_at items_in_1 items_in_2 uri) ∧
  NoDup (reported artifacts_report key "missing_in_1") ∧
  NoDup (reported artifacts_report key "missing_in_2") ∧
  NoDup (reported artifacts_report key "diffs").
Proof.
  intros Hdiff Har H1 H2 Hk Ht Hagg Hl1 Hl2.
  unfold exists_in_both in Hk. apply elem_of_intersection in Hk as [Hk1 Hk2].
  unfold reported.
  rewrite (compared_entry set_iter set_iter_perm _ _ _ _ _ _ _ _ _ _ _
             Hdiff Har H1 H2 Hk1 Hk2 Ht Hagg Hl1 Hl2).
  rewrite spec_entry_missing_in_1, spec_entry_missing_in_2, spec_entry_diffs.
  split; [|split; [|split; [|split; [|split]]]].
  - intros uri. rewrite elem_of_set_iter, elem_of_difference by done. tauto.
  - intros uri. rewrite elem_of_set_iter, elem_of_difference by done. tauto.
  - intros uri. rewrite list_elem_of_filter, elem_of_set_iter by done.
    split; [by intros [? _]|]. intros Hd. split; [done|].
    destruct Hd as (a & b & Ha & Hb & _).
    apply elem_of_intersection. split; apply elem_of_dom; eauto.
  - by apply NoDup_set_iter.
  - by apply NoDup_set_iter.
  - by apply NoDup_filter, NoDup_set_iter.
Qed.

(** X15. For a repository that neither site types [VIRTUAL] or [REMOTE],
    swapping the two sites swaps the two lists of missing paths and leaves
    the list of differing paths as it is, up to the order. *)
Theorem diff_swap_artifacts (site_1 site_2 : site) (rep rep' : report)
    (artifacts_report artifacts_report' : gmap string (gmap string (list string)))
    (repositories_1 repositories_2 : gmap string (gmap string string))
    (key rclass_1 rclass_2 : string) :
  diff set_iter site_1 site_2 false = Ok rep →
  diff set_iter site_2 site_1 false = Ok rep' →
  artifacts rep = Some artifacts_report →
  artifacts rep' = Some artifacts_report' →
  _repository_keys site_1 = Ok repositories_1 →
  _repository_keys site_2 = Ok repositories_2 →
  key ∈ exists_in_both repositories_1 repositories_2 →
  rclass repositories_1 key = Some rclass_1 → ¬ aggregating rclass_1 →
  rclass repositories_2 key = Some rclass_2 → ¬ aggregating rclass_2 →
  reported artifacts_report key "missing_in_1"
    ≡ₚ reported artifacts_report' key "missing_in_2" ∧
  reported artifacts_report key "missing_in_2"
    ≡ₚ reported artifacts_report' key "missing_in_1" ∧
  reported artifacts_report key "diffs"
    ≡ₚ reported artifacts_report' key "diffs".
Proof.
  intros Hdiff Hdiff' Har Har' H1 H2 Hk Ht1 Hagg1 Ht2 Hagg2.
  unfold exists_in_both in Hk. apply elem_of_intersection in Hk as [Hk1 Hk2].
  assert (∃ i1 i2, _list_items site_1 key = Ok i1 ∧
                   _list_items site_2 key = Ok i2) as (i1 & i2 & Hl1 & Hl2).
  { pose proof (diff_Ok set_iter set_iter_perm _ _ _ _ Hdiff)
      as (r1 & r2 & H1' & H2' & _ & _ & _ & _ & ar & Har0 & Hall).
    rewrite H1 in H1'. rewrite H2 in H2'. simplify_eq.
    destruct (Hall key) as [_ Hin].
    destruct Hin as (t & Ht & Hentry); [by apply elem_of_intersection|].
    rewrite Ht1 in Ht. simplify_eq. rewrite decide_False in Hentry by done.
    destruct Hentry as (i1 & i2 & ? & ? & _). by exists i1, i2. }
  unfold reported.
  rewrite (compared_entry set_iter set_iter_perm _ _ _ _ _ _ _ _ _ _ _
             Hdiff Har H1 H2 Hk1 Hk2 Ht1 Hagg1 Hl1 Hl2).
  rewrite (compared_entry set_iter set_iter_perm _ _ _ _ _ _ _ _ _ _ _
             Hdiff' Har' H2 H1 Hk2 Hk1 Ht2 Hagg2 Hl2 Hl1).
  rewrite !spec_entry_missing_in_1, !spec_entry_missing_in_2, !spec_entry_diffs.
  split; [done|]. split; [done|].
  rewrite (comm_L (∩) (dom i2) (dom i1)).
  erewrite list_filter_iff; [done|]. intros uri. apply differs_at_sym.
Qed.

(** X16. A site compared with itself gives the empty report: nothing missing,
    no mismatch, and no repository in the artifacts map. *)
Theorem diff_same_site (s : site) (exclude : bool) (rep : report) :
  diff set_iter s s exclude = Ok rep →
  missing_in_1 (repositories rep) = [] ∧
  missing_in_2 (repositories rep) = [] ∧
  rclass_mismatch (repositories rep) = [] ∧
  artifacts rep = if exclude then None else Some ∅.
Proof.
  intros Hdiff.
  pose proof (diff_Ok set_iter set_iter_perm _ _ _ _ Hdiff)
    as (r1 & r2 & H1 & H2 & -> & -> & -> & _ & Hart).
  rewrite H1 in H2. simplify_eq.
  assert (Hself : dom r2 ∖ dom r2 = (∅ : gset string)).
  { apply set_eq. intros x. rewrite elem_of_difference, elem_of_empty. tauto. }
  rewrite Hself, (proj2 (set_iter_nil set_iter set_iter_perm ∅) eq_refl).
  do 2 (split; [done|]). split.
  { induction (set_iter (dom r2 ∩ dom r2)) as [|k l IH]; [done|].
    rewrite filter_cons, decide_False by (intros Hne; by apply Hne). done. }
  destruct exclude; [done|]. destruct Hart as (ar & -> & Hall). f_equal.
  apply map_eq. intros key. rewrite lookup_empty.
  destruct (Hall key) as [Hout Hin].
  destruct (decide (key ∈ dom r2 ∩ dom r2)) as [Hk|Hk]; [|by apply Hout].
  destruct (Hin Hk) as (t & Ht & Hentry).
  destruct (decide (aggregating t)); [done|].
  destruct Hentry as (i1 & i2 & Hl1 & Hl2 & ->).
  rewrite Hl1 in Hl2. simplify_eq.
  assert (Hself' : dom i2 ∖ dom i2 = (∅ : gset string)).
  { apply set_eq. intros x. rewrite elem_of_difference, elem_of_empty. tauto. }
  rewrite Hself', (proj2 (set_iter_nil set_iter set_iter_perm ∅) eq_refl).
  apply spec_entry_None. do 2 (split; [done|]).
  induction (set_iter (dom i2 ∩ dom i2)) as [|u l IH]; [done|].
  rewrite filter_cons, decide_False; [done|].
  intros (a & b & Ha & Hb & [Hs|Hs]); rewrite Ha in Hb; by simplify_eq.
Qed.

(** X19. A repository that is compared and whose listing fails on either site
    is not left out of the report: the run ends with an exception. *)
Theorem diff_aborts_on_failed_listing (site_1 site_2 : site)
    (repositories_1 repositories_2 : gmap string (gmap string string))
    (key rclass_1 : string) :
  _repository_keys site_1 = Ok repositories_1 →
  _repository_keys site_2 = Ok repositories_2 →
  key ∈ exists_in_both repositories_1 repositories_2 →
  rclass repositories_1 key = Some rclass_1 →
  ¬ aggregating rclass_1 →
  400 ≤ status_code (api_storage site_1 key) < 600 ∨
  400 ≤ status_code (api_storage site_2 key) < 600 →
  ∃ e, diff set_iter site_1 site_2 false = Raise e.
Proof.
  intros H1 H2 Hk Ht Hagg Hfail.
  destruct (diff set_iter site_1 site_2 false) as [rep|e] eqn:Hdiff;
    [exfalso|by exists e].
  pose proof (diff_Ok set_iter set_iter_perm _ _ _ _ Hdiff)
    as (r1 & r2 & H1' & H2' & _ & _ & _ & _ & ar & _ & Hall).
  rewrite H1 in H1'. rewrite H2 in H2'. simplify_eq.
  destruct (Hall key) as [_ Hin].
  destruct (Hin Hk) as (t & Ht' & Hentry).
  rewrite Ht in Ht'. simplify_eq. rewrite decide_False in Hentry by done.
  destruct Hentry as (i1 & i2 & Hl1 & Hl2 & _).
  unfold _list_items, _raise_for_status in Hl1, Hl2.
  destruct Hfail as [Hf|Hf].
  - by rewrite bool_decide_eq_true_2 in Hl1.
  - by rewrite bool_decide_eq_true_2 in Hl2.
Qed.

(** X20. The report depends on the file listings only of the repositories that
    are compared: two pairs of sites with the same repositories, and the
    same listings for the repositories of both sides that side 1 does not
    type [VIRTUAL] or [REMOTE], get the same result, and with
    [exclude_artifacts] no listing matters. *)
Theorem diff_reads_compared_listings_only (site_1 site_2 site_1' site_2' : site)
    (exclude : bool) :
  api_repositories site_1' = api_repositories site_1 →
  api_repositories site_2' = api_repositories site_2 →
  (exclude = false →
   ∀ repositories_1 repositories_2 key rclass_1,
     _repository_keys site_1 = Ok repositories_1 →
     _repository_keys site_2 = Ok repositories_2 →
     key ∈ exists_in_both repositories_1 repositories_2 →
     rclass repositories_1 key = Some rclass_1 →
     ¬ aggregating rclass_1 →
     api_storage site_1' key = api_storage site_1 key ∧
     api_storage site_2' key = api_storage site_2 key) →
  diff set_iter site_1' site_2' exclude = diff set_iter site_1 site_2 exclude.
Proof.
  intros Hr1 Hr2 Hst. unfold diff, _repository_keys. rewrite Hr1, Hr2.
  fold (_repository_keys site_1). fold (_repository_keys site_2).
  destruct (_repository_keys site_1) as [r1|e1] eqn:H1; [|done].
  destruct (_repository_keys site_2) as [r2|e2] eqn:H2; [|done]. cbn.
  destruct (for_each (rclass_body r1 r2) _ []) as [mm|e]; [|done]. cbn.
  destruct exclude; [done|]. cbn.
  rewrite (for_each_ext (artifacts_body set_iter site_1' site_2' r1)
                        (artifacts_body set_iter site_1 site_2 r1)); [done|].
  intros key ar Hkey. apply elem_of_set_iter in Hkey; [|done].
  unfold artifacts_body, getitem.
  destruct (r1 !! key) as [it|] eqn:Hit; [|done]. cbn.
  destruct (it !! "type") as [t|] eqn:Hty; [|done]. cbn.
  case_decide as Hagg; [done|]. rewrite aggregating_elem_of in Hagg.
  destruct (Hst eq_refl r1 r2 key t eq_refl eq_refl Hkey) as [Hs1 Hs2];
    [apply rclass_Some; eauto|done|].
  unfold _list_items. by rewrite Hs1, Hs2.
Qed.

(** X21. A run that compares the artifacts and ends with a report also ends
    with one, the same but for the artifacts, when they are excluded. *)
Theorem diff_exclude_succeeds (site_1 site_2 : site) (rep : report) :
  diff set_iter site_1 site_2 false = Ok rep →
  diff set_iter site_1 site_2 true
  = Ok {| repositories := repositories rep; artifacts := None |}.
Proof.
  unfold diff. intros H. inv_ok. subst rep. cbn.
  repeat match goal with E : _ = Ok _ |- _ => rewrite E; cbn; clear E end.
  done.
Qed.

End more.

(** X22. [_repository_keys] keeps, for each key, the last repository that the
    site lists with it, and the keys are those the site lists. *)
Theorem repository_keys_last_wins (s : site)
    (repositories : gmap string (gmap string string)) (key : string) :
  _repository_keys s = Ok repositories →
  repositories !! key
  = last (filter (λ it, it !! "key" = Some key) (json_body (api_repositories s))).
Proof.
  unfold _repository_keys. intros H. inv_ok.
  rename select (dict_by _ _ _ = _) into Hd.
  apply (dict_by_last _ _ _ _ key) in Hd. rewrite Hd, lookup_empty.
  by destruct (last _).
Qed.

(** X23. [_list_items] gives a listing exactly when the status is not an error,
    the answer has a ["files"] member and every file has a ["uri"]; else it
    raises the status, or the [KeyError] of the member that is missing. *)
Theorem list_items_outcome (s : site) (repository : string) :
  match _list_items s repository with
  | Ok items =>
      ¬ (400 ≤ status_code (api_storage s repository) < 600) ∧
      ∃ files, json_body (api_storage s repository) = Some files ∧
               Forall (λ it, is_Some (it !! "uri")) files ∧
               ∀ uri, items !! uri
                      = last (filter (λ it, it !! "uri" = Some uri) files)
  | Raise (HTTPError c) =>
      c = status_code (api_storage s repository) ∧ 400 ≤ c < 600
  | Raise (KeyError k) =>
      ¬ (400 ≤ status_code (api_storage s repository) < 600) ∧
      match json_body (api_storage s repository) with
      | None => k = "files"
      | Some files => k = "uri" ∧ ∃ it, it ∈ files ∧ it !! "uri" = None
      end
  | Raise _ => False
  end.
Proof.
  unfold _list_items, _raise_for_status.
  case_bool_decide as Hst; cbn; [done|].
  destruct (json_body (api_storage s repository)) as [files|]; cbn; [|done].
  destruct (dict_by "uri" files ∅) as [items|e] eqn:Hd.
  - split; [done|]. exists files. split; [done|]. split.
    + apply (dict_by_Ok_iff "uri" files ∅). by exists items.
    + intros uri. rewrite (dict_by_last _ _ _ _ uri Hd), lookup_empty.
      by destruct (last _).
  - pose proof (dict_by_Raise _ _ _ _ Hd) as ->. split; [done|].
    split; [done|].
    destruct (decide (Forall (λ it, is_Some (it !! "uri")) files)) as [Hall|Hno].
    + apply (dict_by_Ok_iff "uri" files ∅) in Hall as [d Hd']. congruence.
    + apply not_Forall_Exists in Hno; [|apply _].
      apply Exists_exists in Hno as (it & Hin & Hnone).
      exists it. split; [done|]. by apply eq_None_not_Some.
Qed.

End SitesDiffMoreFacts.

(** ** The scripts on the other example inputs *)
Module MoreExampleFacts.
Import SitesDiff Reports Exports Examples MoreExamples.
Import SitesDiffFacts ReportsFacts GeneratorFacts ImportFacts ExportFacts.
Import SitesDiffMoreFacts ExampleFacts.

Lemma walk_aborts_on_http_error_witness :
  ∃ events,
    consume pages_then_error 3 _report_summaries_generator
      = (events, Some (Failed (HTTPError 503))) ∧
    map snd (yields events) = [r1; r2] ∧
    fetches events = [1; 2].
Proof.
  apply (walk_aborts_on_http_error pages_then_error 1 3 503).
  - intros p Hp. assert (p = 1) as -> by lia. reflexivity.
  - intros p Hp. assert (p = 1) as -> by lia. discriminate.
  - intros p d Hp Hd. assert (p = 1) as -> by lia. cbn in Hd.
    repeat (apply elem_of_cons in Hd as [->|Hd]);
      try (by apply elem_of_nil in Hd); split; vm_compute; eauto.
  - reflexivity.
  - lia.
  - cbn. lia.
Defined.

Lemma walk_aborts_on_missing_member_witness :
  ∃ events,
    consume pages_then_nameless 4 _report_summaries_generator
      = (events, Some (Failed (KeyError "name"))) ∧
    map snd (yields events) = [r1; r2; r3] ∧
    fetches events = [1; 2].
Proof.
  apply (walk_aborts_on_missing_member pages_then_nameless 1 4 [r3] [r1]
           nameless).
  - intros p Hp. destruct p as [|[|[|p]]]; [lia|reflexivity|reflexivity|lia].
  - intros p Hp. assert (p = 1) as -> by lia. discriminate.
  - intros p d Hp Hd. assert (p = 1) as -> by lia. cbn in Hd.
    repeat (apply elem_of_cons in Hd as [->|Hd]);
      try (by apply elem_of_nil in Hd); split; vm_compute; eauto.
  - reflexivity.
  - intros d Hd. apply elem_of_cons in Hd as [->|Hd];
      [split; vm_compute; eauto | by apply elem_of_nil in Hd].
  - right. reflexivity.
  - cbn. lia.
Defined.

Lemma walk_without_empty_page_goes_on_witness :
  ∃ events,
    consume endless 5 _report_summaries_generator = (events, None) ∧
    length (yields events) = 5.
Proof.
  apply (walk_without_empty_page_goes_on endless 5).
  - intros p _. reflexivity.
  - intros p _. discriminate.
  - intros p d _ Hd. cbn in Hd. apply elem_of_cons in Hd as [->|Hd];
      [split; vm_compute; eauto | by apply elem_of_nil in Hd].
Defined.


Lemma import_success_posts_all_witness :
  (import_definitions accept_all true [r1; r2; r3]).1.*2 = [r1; r2; r3] ∧
  (import_definitions accept_all true [r1; r2; r3]).1.*1
  = ["licenses"; "vulnerabilities"; "operationalRisks"].
Proof.
  destruct (import_success_posts_all accept_all true [r1; r2; r3] eq_refl)
    as (_ & Hall & _).
  split; [exact Hall | reflexivity].
Defined.

Lemma import_missing_report_type_witness :
  import_definitions accept_all true [r1; nothing; r2]
  = ([("licenses", r1)], Raise (KeyError "report_type")).
Proof.
  apply (import_missing_report_type accept_all [r1] [r2] nothing);
    reflexivity.
Defined.

Lemma import_refused_definition_witness :
  import_definitions refuse_vulnerabilities true [r1; r2; r3]
  = ([("licenses", r1); ("vulnerabilities", r2)], Raise (HTTPError 400)).
Proof.
  apply (import_refused_definition refuse_vulnerabilities [r1] [r3] r2
           (JStr "vulnerability") "vulnerabilities").
  - reflexivity.
  - reflexivity.
  - apply elem_of_cons. right. apply elem_of_cons. by left.
  - change (400 ≤ 400 < 600). lia.
Defined.

Lemma export_definitions_complete_witness :
  ∃ files',
    export_definitions three_pages details every_name 4 ∅
    = ([PostReports 1; GetReport "1"; GetReport "2";
        PostReports 2; GetReport "3"; PostReports 3],
       files', Some (Walk Completed)) ∧
    files' !! "2-summary.json" = Some (JsonFile r2) ∧
    files' !! "2-details.json"
      = Some (JsonFile {[ "report_id" := JStr "2" ]}).
Proof.
  destruct (export_definitions_complete three_pages details every_name 2 4 ∅)
    as (files' & Hrun & _ & _ & Hsaved).
  - intros p _. reflexivity.
  - intros p Hp. destruct p as [|[|[|p]]]; [lia|discriminate|discriminate|lia].
  - reflexivity.
  - intros p d Hp Hd.
    destruct p as [|[|[|p]]]; [lia| | |lia]; cbn in Hd;
      repeat (apply elem_of_cons in Hd as [->|Hd]);
      try (by apply elem_of_nil in Hd); split; vm_compute; eauto.
  - intros p d i _ _ _. split; [reflexivity|]. split; [cbn; lia|reflexivity].
  - cbn. lia.
  - exists files'. split; [exact Hrun|].
    apply (Hsaved ltac:(apply (bool_decide_unpack _); vm_compute; exact I)
                  (JInt 2, JStr "beta", r2)).
    apply (bool_decide_unpack _). vm_compute. exact I.
Defined.

Lemma export_definitions_refused_witness :
  ∃ files',
    export_definitions three_pages details_but_2 every_name 4 ∅
    = ([PostReports 1; GetReport "1"; GetReport "2"], files',
       Some (Walk (Failed (HTTPError 404)))) ∧
    files' !! "2-summary.json" = Some (JsonFile r2) ∧
    files' !! "2-details.json" = None.
Proof.
  destruct (export_definitions_refused three_pages details_but_2 every_name 4
              [Fetch 1; Yield (JInt 1, JStr "alpha", r1)]
              [Fetch 2; Yield (JInt 3, JStr "gamma", r3); Fetch 3]
              (Some Completed) (JInt 2) (JStr "beta") r2 ∅)
    as (files' & Hrun & Hsummary & Hdetails).
  - vm_compute. reflexivity.
  - intros v Hv. cbn in Hv. apply elem_of_cons in Hv as [->|Hv];
      [|by apply elem_of_nil in Hv].
    split; [reflexivity|]. split; [|reflexivity].
    change (¬ (400 ≤ 200 < 600)). lia.
  - reflexivity.
  - change (400 ≤ 404 < 600). lia.
  - exists files'. split; [exact Hrun|]. split; [exact Hsummary|].
    apply Hdetails; [reflexivity|]. cbn. intros Hin.
    apply elem_of_cons in Hin as [Hin|Hin]; [discriminate Hin|].
    by apply elem_of_nil in Hin.
Defined.

Lemma export_definitions_unopenable_witness :
  ∃ files',
    export_definitions pages_with_odd details flat_names 4 ∅
    = ([PostReports 1; GetReport "1"], files',
       Some (OpenFailed "x/1-summary.json")) ∧
    files' !! "x/1-summary.json" = None.
Proof.
  destruct (export_definitions_unopenable pages_with_odd details flat_names 4
              [Fetch 1; Yield (JInt 1, JStr "alpha", r1)]
              [Yield (JInt 2, JStr "beta", r2); Fetch 2]
              (Some Completed) (JStr "x/1") (JStr "odd") odd ∅)
    as (files' & Hrun & Hother).
  - vm_compute. reflexivity.
  - intros v Hv. cbn in Hv. apply elem_of_cons in Hv as [->|Hv];
      [|by apply elem_of_nil in Hv].
    split; [reflexivity|]. split; [|reflexivity].
    change (¬ (400 ≤ 200 < 600)). lia.
  - reflexivity.
  - exists files'. split; [exact Hrun|]. rewrite Hother; [reflexivity|].
    intros v Hv. cbn in Hv. apply elem_of_cons in Hv as [->|Hv];
      [|by apply elem_of_nil in Hv].
    split; discriminate.
Defined.

Lemma export_contents_complete_witness :
  ∃ files',
    export_contents three_pages archive every_name "pdf" 4 ∅
    = ([PostReports 1; GetExport "1" "1-alpha" "pdf";
        GetExport "2" "2-beta" "pdf";
        PostReports 2; GetExport "3" "3-gamma" "pdf"; PostReports 3],
       files', Some (Walk Completed)) ∧
    files' !! "3-gamma.zip" = Some (BinaryFile "PK3-gamma").
Proof.
  destruct (export_contents_complete three_pages archive every_name "pdf" 2 4 ∅)
    as (files' & Hrun & _ & _ & Hsaved).
  - intros p _. reflexivity.
  - intros p Hp. destruct p as [|[|[|p]]]; [lia|discriminate|discriminate|lia].
  - reflexivity.
  - intros p d Hp Hd.
    destruct p as [|[|[|p]]]; [lia| | |lia]; cbn in Hd;
      repeat (apply elem_of_cons in Hd as [->|Hd]);
      try (by apply elem_of_nil in Hd); split; vm_compute; eauto.
  - intros p d i n _ _ _ _. split; [cbn; lia|reflexivity].
  - cbn. lia.
  - exists files'. split; [exact Hrun|].
    apply (Hsaved ltac:(apply (bool_decide_unpack _); vm_compute; exact I)
                  (JInt 3, JStr "gamma", r3)).
    apply (bool_decide_unpack _). vm_compute. exact I.
Defined.

Lemma export_contents_refused_witness :
  ∃ files',
    export_contents three_pages archive_but_2 every_name "csv" 4 ∅
    = ([PostReports 1; GetExport "1" "1-alpha" "csv";
        GetExport "2" "2-beta" "csv"], files',
       Some (Walk (Failed (HTTPError 500)))) ∧
    files' !! "2-beta.zip" = None.
Proof.
  destruct (export_contents_refused three_pages archive_but_2 every_name
              "csv" 4
              [Fetch 1; Yield (JInt 1, JStr "alpha", r1)]
              [Fetch 2; Yield (JInt 3, JStr "gamma", r3); Fetch 3]
              (Some Completed) (JInt 2) (JStr "beta") r2 ∅)
    as (files' & Hrun & Hother).
  - vm_compute. reflexivity.
  - intros v Hv. cbn in Hv. apply elem_of_cons in Hv as [->|Hv];
      [|by apply elem_of_nil in Hv].
    split; [|reflexivity]. change (¬ (400 ≤ 200 < 600)). lia.
  - change (400 ≤ 500 < 600). lia.
  - exists files'. split; [exact Hrun|]. rewrite Hother; [reflexivity|].
    intros v Hv. cbn in Hv. apply elem_of_cons in Hv as [->|Hv];
      [|by apply elem_of_nil in Hv].
    discriminate.
Defined.

Lemma export_contents_unopenable_witness :
  ∃ files',
    export_contents pages_with_slashed archive flat_names "json" 4 ∅
    = ([PostReports 1; GetExport "1" "1-alpha" "json";
        GetExport "5" "5-a/b" "json"], files',
       Some (OpenFailed "5-a/b.zip")) ∧
    files' !! "5-a/b.zip" = None.
Proof.
  destruct (export_contents_unopenable pages_with_slashed archive flat_names
              "json" 4
              [Fetch 1; Yield (JInt 1, JStr "alpha", r1)]
              [Yield (JInt 2, JStr "beta", r2); Fetch 2]
              (Some Completed) (JInt 5) (JStr "a/b") slashed ∅)
    as (files' & Hrun & Hother).
  - vm_compute. reflexivity.
  - intros v Hv. cbn in Hv. apply elem_of_cons in Hv as [->|Hv];
      [|by apply elem_of_nil in Hv].
    split; [|reflexivity]. change (¬ (400 ≤ 200 < 600)). lia.
  - change (¬ (400 ≤ 200 < 600)). lia.
  - reflexivity.
  - exists files'. split; [exact Hrun|]. rewrite Hother; [reflexivity|].
    intros v Hv. cbn in Hv. apply elem_of_cons in Hv as [->|Hv];
      [|by apply elem_of_nil in Hv].
    discriminate.
Defined.

Lemma diff_swap_repositories_witness :
  diff elements site_1 site_2 false = Ok report_12 ∧
  diff elements site_2 site_1 false = Ok report_21 ∧
  missing_in_1 (repositories report_12) ≡ₚ missing_in_2 (repositories report_21) ∧
  missing_in_2 (repositories report_12) ≡ₚ missing_in_1 (repositories report_21) ∧
  rclass_mismatch (repositories report_12)
    ≡ₚ rclass_mismatch (repositories report_21).
Proof.
  split; [vm_compute; reflexivity|]. split; [vm_compute; reflexivity|].
  apply (diff_swap_repositories elements elements_perm site_1 site_2
           false false report_12 report_21); vm_compute; reflexivity.
Defined.

Lemma diff_swap_artifacts_witness :
  reported artifacts_12 "lib-a" "missing_in_1"
    ≡ₚ reported artifacts_21 "lib-a" "missing_in_2" ∧
  reported artifacts_12 "lib-a" "missing_in_2"
    ≡ₚ reported artifacts_21 "lib-a" "missing_in_1" ∧
  reported artifacts_12 "lib-a" "diffs"
    ≡ₚ reported artifacts_21 "lib-a" "diffs".
Proof.
  apply (diff_swap_artifacts elements elements_perm site_1 site_2
           report_12 report_21 artifacts_12 artifacts_21
           repositories_1 repositories_2 "lib-a" "LOCAL" "LOCAL").
  - vm_compute; reflexivity.
  - vm_compute; reflexivity.
  - reflexivity.
  - reflexivity.
  - vm_compute; reflexivity.
  - vm_compute; reflexivity.
  - vm_compute; reflexivity.
  - vm_compute; reflexivity.
  - intros [H|H]; discriminate H.
  - vm_compute; reflexivity.
  - intros [H|H]; discriminate H.
Defined.

Lemma diff_same_site_witness :
  diff elements site_1 site_1 false
  = Ok {| repositories := {| missing_in_1 := []; missing_in_2 := [];
                             rclass_mismatch := [] |};
          artifacts := Some ∅ |}.
Proof.
  destruct (diff elements site_1 site_1 false) as [rep|e] eqn:Hdiff;
    [|vm_compute in Hdiff; discriminate Hdiff].
  destruct (diff_same_site elements elements_perm site_1 false rep Hdiff)
    as (H1 & H2 & H3 & H4).
  destruct rep as [[m1 m2 mm] ar]. cbn in *. by subst.
Defined.

Lemma artifacts_keys_are_compared_witness :
  false = false ∧
  ∃ repositories_1 repositories_2 rclass_1,
    _repository_keys site_1 = Ok repositories_1 ∧
    _repository_keys site_2 = Ok repositories_2 ∧
    "lib-m" ∈ exists_in_both repositories_1 repositories_2 ∧
    rclass repositories_1 "lib-m" = Some rclass_1 ∧
    rclass_1 ≠ "VIRTUAL" ∧ rclass_1 ≠ "REMOTE".
Proof.
  apply (artifacts_keys_are_compared elements elements_perm site_1 site_2
           false report_12 artifacts_12 "lib-m").
  - vm_compute; reflexivity.
  - reflexivity.
  - vm_compute; reflexivity.
Defined.

Lemma record_lists_are_exact_witness :
  (∀ uri, uri ∈ reported artifacts_12 "lib-a" "missing_in_1" ↔
          uri ∈ dom items_a_2 ∧ uri ∉ dom items_a_1) ∧
  (∀ uri, uri ∈ reported artifacts_12 "lib-a" "missing_in_2" ↔
          uri ∈ dom items_a_1 ∧ uri ∉ dom items_a_2) ∧
  (∀ uri, uri ∈ reported artifacts_12 "lib-a" "diffs" ↔
          differs_at items_a_1 items_a_2 uri) ∧
  NoDup (reported artifacts_12 "lib-a" "missing_in_1") ∧
  NoDup (reported artifacts_12 "lib-a" "missing_in_2") ∧
  NoDup (reported artifacts_12 "lib-a" "diffs").
Proof.
  apply (record_lists_are_exact elements elements_perm site_1 site_2
           report_12 artifacts_12 repositories_1 repositories_2
           "lib-a" "LOCAL" items_a_1 items_a_2).
  - vm_compute; reflexivity.
  - reflexivity.
  - vm_compute; reflexivity.
  - vm_compute; reflexivity.
  - vm_compute; reflexivity.
  - vm_compute; reflexivity.
  - intros [H|H]; discriminate H.
  - vm_compute; reflexivity.
  - vm_compute; reflexivity.
Defined.

Lemma diff_aborts_on_failed_listing_witness :
  ∃ e, diff elements site_1_down site_2 false = Raise e.
Proof.
  apply (diff_aborts_on_failed_listing elements elements_perm
           site_1_down site_2 repositories_1 repositories_2 "lib-a" "LOCAL").
  - vm_compute; reflexivity.
  - vm_compute; reflexivity.
  - vm_compute; reflexivity.
  - vm_compute; reflexivity.
  - intros [H|H]; discriminate H.
  - left. change (400 ≤ 503 < 600). lia.
Defined.

Lemma diff_exclude_succeeds_witness :
  diff elements site_1 site_2 true
  = Ok {| repositories := repositories report_12; artifacts := None |}.
Proof.
  apply (diff_exclude_succeeds elements site_1 site_2 report_12).
  vm_compute; reflexivity.
Defined.

Lemma repository_keys_last_wins_witness :
  ({[ "lib-a" := repo "lib-a" "REMOTE"; "lib-b" := repo "lib-b" "LOCAL" ]}
     : gmap string (gmap string string)) !! "lib-a"
  = last (filter (λ it, it !! "key" = Some "lib-a")
                 [repo "lib-a" "LOCAL"; repo "lib-b" "LOCAL";
                  repo "lib-a" "REMOTE"]).
Proof.
  apply (repository_keys_last_wins site_twice).
  vm_compute; reflexivity.
Defined.

Lemma diff_reads_compared_listings_only_witness :
  diff elements site_1_other site_2 false = diff elements site_1 site_2 false.
Proof.
  apply (diff_reads_compared_listings_only elements elements_perm
           site_1 site_2 site_1_other site_2 false);
    [reflexivity|reflexivity|].
  intros _ r1 r2 key t H1 H2 Hk Ht Hagg. split; [|reflexivity].
  assert (r1 = repositories_1) as ->.
  { assert (H : _repository_keys site_1 = Ok repositories_1)
      by (vm_compute; reflexivity).
    rewrite H in H1. by injection H1. }
  assert (r2 = repositories_2) as ->.
  { assert (H : _repository_keys site_2 = Ok repositories_2)
      by (vm_compute; reflexivity).
    rewrite H in H2. by injection H2. }
  unfold site_1_other. cbn [api_storage].
  destruct (decide (key = "lib-v")) as [->|Hv].
  { exfalso. apply Hagg. left. vm_compute in Ht. by injection Ht. }
  destruct (decide (key = "lib-b")) as [->|Hb]; [|reflexivity].
  exfalso. vm_compute in Hk. discriminate Hk.
Defined.




End MoreExampleFacts.
